(** * Assignee-history reconstruction of [jira_issues_workedOn.py]

    A shallow embedding of the script's time utilities, changelog
    paging, interval reconstruction, window intersection and user-filter
    matching, with the properties of the ownership timeline stated over
    it.

    Conventions of the embedding:
    - a Python [str] is a [string]; a character is read as the code
      point of the same number (the Latin-1 range);
    - a value that may be [None] is an [option];
    - a UTC-aware [datetime] is the number of microseconds elapsed since
      [datetime.min] (0001-01-01T00:00:00), so the ordering of instants
      is the ordering of [Z];
    - code that may raise returns [result], with the exception raised;
      the two paging loops ([while True]) take a bound on the number of
      requests, and [OutOfFuel] is the answer of a loop that has not
      come to its end within the bound. *)

From Stdlib Require Import ZArith List String Ascii Bool Lia DecimalString.
From Stdlib Require Import Sorting.Sorted Sorting.Permutation.
Import ListNotations.

Local Open Scope string_scope.
Local Open Scope Z_scope.

(** ** Exceptions and results *)

Inductive exn : Type :=
| ValueError
| OverflowError
| SystemExit (code : Z).

Inductive result (A : Type) : Type :=
| Ok (a : A)
| Raise (e : exn)
| OutOfFuel.

Arguments Ok {A} a.
Arguments Raise {A} e.
Arguments OutOfFuel {A}.

Definition bind {A B : Type} (r : result A) (k : A -> result B) : result B :=
  match r with
  | Ok a => k a
  | Raise e => Raise e
  | OutOfFuel => OutOfFuel
  end.

Notation "x <- c ;; k" := (bind c (fun x => k))
  (at level 61, c at next level, right associativity).

Notation "' pat <- c ;; k" := (bind c (fun x => match x with pat => k end))
  (at level 61, pat pattern, c at next level, right associativity).

(** ** The [datetime] module *)

Module DateTime.

Definition datetime : Type := Z.

Definition us_per_second : Z := 1000000.
Definition us_per_day : Z := 86400 * us_per_second.

(** [datetime.min.replace(tzinfo=timezone.utc)] *)
Definition dt_min : datetime := 0.

(** [datetime.max.replace(tzinfo=timezone.utc)], that is
    9999-12-31T23:59:59.999999: day 3652059 of the proleptic Gregorian
    calendar is the last one. *)
Definition dt_max : datetime := 3652059 * us_per_day - 1.

Definition in_range (t : Z) : bool := (dt_min <=? t) && (t <=? dt_max).

(** [dt - timedelta(microseconds=n)]: a result outside
    [datetime.min .. datetime.max] raises [OverflowError]. *)
Definition sub_microseconds (dt : datetime) (n : Z) : result datetime :=
  if in_range (dt - n) then Ok (dt - n) else Raise OverflowError.

(** The calendar arithmetic of [datetime.py]. *)
Definition is_leap (year : Z) : bool :=
  (year mod 4 =? 0) && (negb (year mod 100 =? 0) || (year mod 400 =? 0)).

Definition days_before_year (year : Z) : Z :=
  let y := year - 1 in y * 365 + y / 4 - y / 100 + y / 400.

Definition days_in_month (year month : Z) : Z :=
  if month =? 2 then (if is_leap year then 29 else 28)
  else if (month =? 4) || (month =? 6) || (month =? 9) || (month =? 11)
       then 30 else 31.

Fixpoint days_before_month_from (year : Z) (m : nat) : Z :=
  match m with
  | O => 0
  | S k => days_before_month_from year k + days_in_month year (Z.of_nat (S k))
  end.

(** Number of days in [year] before the first day of [month]. *)
Definition days_before_month (year month : Z) : Z :=
  days_before_month_from year (Z.to_nat (month - 1)).

(** [date(year, month, day).toordinal()], 0001-01-01 being day 1. *)
Definition ymd2ord (year month day : Z) : Z :=
  days_before_year year + days_before_month year month + day.

Definition valid_date (year month day : Z) : bool :=
  (1 <=? year) && (year <=? 9999) && (1 <=? month) && (month <=? 12)
  && (1 <=? day) && (day <=? days_in_month year month).

Definition valid_time (hour minute second microsecond : Z) : bool :=
  (0 <=? hour) && (hour <=? 23) && (0 <=? minute) && (minute <=? 59)
  && (0 <=? second) && (second <=? 59)
  && (0 <=? microsecond) && (microsecond <=? 999999).

Definition time_us (hour minute second microsecond : Z) : Z :=
  ((hour * 60 + minute) * 60 + second) * us_per_second + microsecond.

(** [datetime(year, month, day, hour, minute, second, microsecond,
    tzinfo=timezone.utc)]; fields out of range raise [ValueError]. *)
Definition mk_datetime (year month day hour minute second microsecond : Z)
  : result datetime :=
  if valid_date year month day && valid_time hour minute second microsecond
  then Ok ((ymd2ord year month day - 1) * us_per_day
           + time_us hour minute second microsecond)
  else Raise ValueError.

(** [dt.replace(hour=.., minute=.., second=.., microsecond=..)]: the
    date is kept, the time of day is replaced. *)
Definition replace_time (dt : datetime) (hour minute second microsecond : Z)
  : result datetime :=
  if valid_time hour minute second microsecond
  then Ok (dt / us_per_day * us_per_day + time_us hour minute second microsecond)
  else Raise ValueError.

End DateTime.

Import DateTime.

(** ** Data of the script

    The dictionaries the script builds have fixed keys; each is a
    record with the keys as fields. *)

(** An entry of the list returned by [get_assignee_changes]. *)
Record change : Type := mk_change {
  created_dt : datetime;
  from_id : option string;
  from_name : option string;
  to_id : option string;
  to_name : option string
}.

(** An element of [intervals] in [compute_assignee_window_info]. *)
Record interval : Type := mk_interval {
  iv_start : datetime;
  iv_end : datetime;
  iv_id : option string;
  iv_name : option string
}.

(** The [assignee] object of an issue, and the issue's [fields]. *)
Record user : Type := mk_user {
  accountId : option string;
  displayName : option string
}.

Record issue_fields : Type := mk_fields {
  f_summary : option string;
  f_assignee : option user;
  f_project_key : option string;
  f_issuetype_name : option string;
  f_status_name : option string;
  f_created : option string;
  f_updated : option string;
  f_resolutiondate : option string
}.

(** [overlaps(a_start, a_end, b_start, b_end)] *)
Definition overlaps (a_start a_end b_start b_end : datetime) : bool :=
  (a_start <=? b_end) && (b_start <=? a_end).

(** ** Timeline reconstruction: the first half of
    [compute_assignee_window_info] *)

(** The loop [for i in range(len(assignee_changes) - 1)]: one interval
    for each pair of neighbours. *)
Fixpoint between_changes (cs : list change) : result (list interval) :=
  match cs with
  | cur :: ((nxt :: _) as rest) =>
      e <- sub_microseconds (created_dt nxt) 1 ;;
      ivs <- between_changes rest ;;
      Ok (mk_interval (created_dt cur) e (to_id cur) (to_name cur) :: ivs)
  | _ => Ok []
  end.

(** [cur = issue_fields.get("assignee") or {}] followed by
    [cur.get("accountId")] and [cur.get("displayName")]. *)
Definition current_assignee (f : issue_fields) : option string * option string :=
  match f_assignee f with
  | Some u => (accountId u, displayName u)
  | None => (None, None)
  end.

(** The list [intervals] as it stands when the window loop starts. *)
Definition intervals (f : issue_fields) (assignee_changes : list change)
  : result (list interval) :=
  match assignee_changes with
  | first :: _ =>
      e <- sub_microseconds (created_dt first) 1 ;;
      mids <- between_changes assignee_changes ;;
      let last := List.last assignee_changes first in
      Ok (mk_interval dt_min e (from_id first) (from_name first)
          :: (mids
              ++ [mk_interval (created_dt last) dt_max (to_id last) (to_name last)])%list)
  | [] =>
      let cur := current_assignee f in
      Ok [mk_interval dt_min dt_max (fst cur) (snd cur)]
  end.

(** ** Python strings *)

Module PyStr.

Definition code (c : ascii) : Z := Z.of_N (N_of_ascii c).
Definition chr (n : Z) : ascii := ascii_of_N (Z.to_N n).

(** [ch.isspace()] on the code points below 256. *)
Definition isspace (c : ascii) : bool :=
  let n := code c in
  ((9 <=? n) && (n <=? 13)) || ((28 <=? n) && (n <=? 32))
  || (n =? 133) || (n =? 160).

(** [ch.lower()] on the code points below 256: the letters A-Z and
    the accented capitals other than the multiplication sign. *)
Definition lower_char (c : ascii) : ascii :=
  let n := code c in
  if ((65 <=? n) && (n <=? 90))
     || ((192 <=? n) && (n <=? 222) && negb (n =? 215))
  then chr (n + 32) else c.

Fixpoint lower (s : string) : string :=
  match s with
  | EmptyString => EmptyString
  | String c r => String (lower_char c) (lower r)
  end.

Fixpoint lstrip (s : string) : string :=
  match s with
  | EmptyString => EmptyString
  | String c r => if isspace c then lstrip r else s
  end.

Fixpoint rstrip (s : string) : string :=
  match s with
  | EmptyString => EmptyString
  | String c r =>
      match rstrip r with
      | EmptyString => if isspace c then EmptyString else String c EmptyString
      | r' => String c r'
      end
  end.

(** [s.strip()] *)
Definition strip (s : string) : string := rstrip (lstrip s).

(** Truth value of a string, and of a string that may be [None]. *)
Definition truthy (s : string) : bool :=
  match s with EmptyString => false | _ => true end.

Definition truthy_opt (o : option string) : bool :=
  match o with Some s => truthy s | None => false end.

(** [s.split(sep)] for a one-character separator. *)
Fixpoint split (sep : ascii) (s : string) : list string :=
  match s with
  | EmptyString => [EmptyString]
  | String c r =>
      if Ascii.eqb c sep then EmptyString :: split sep r
      else match split sep r with
           | w :: ws => String c w :: ws
           | [] => [String c EmptyString]
           end
  end.

(** [sep.join(parts)] *)
Definition join (sep : string) (parts : list string) : string :=
  String.concat sep parts.

(** [x in xs] for a list of strings. *)
Definition mem (x : string) (xs : list string) : bool :=
  existsb (String.eqb x) xs.

Definition any_space (s : string) : bool :=
  existsb isspace (list_ascii_of_string s).

(** [s.rstrip(chars)] for a single character. *)
Fixpoint rstrip_char (ch : ascii) (s : string) : string :=
  match s with
  | EmptyString => EmptyString
  | String c r =>
      match rstrip_char ch r with
      | EmptyString => if Ascii.eqb c ch then EmptyString else String c EmptyString
      | r' => String c r'
      end
  end.

(** [str(n)] for an integer. *)
Definition of_int (n : Z) : string := NilZero.string_of_int (Z.to_int n).

(** The string made of one double quote. *)
Definition dquote : string := String (ascii_of_nat 34) EmptyString.

End PyStr.

(** ** [datetime.strptime] on the two formats of the script

    CPython's [_strptime] turns the format into a regular expression
    (compiled with IGNORECASE), takes the match the backtracking matcher
    finds first and raises [ValueError] when there is none or when it
    stops before the end of the string.  A matcher is modelled as the
    list of its matches in the order the regex engine tries them; the
    directives below carry the regular expressions of [_strptime]. *)

Module Strptime.

Definition matcher (A : Type) : Type := list ascii -> list (A * list ascii).

Definition pure {A} (a : A) : matcher A := fun s => [(a, s)].

Definition seq {A B} (p : matcher A) (k : A -> matcher B) : matcher B :=
  fun s => flat_map (fun '(a, r) => k a r) (p s).

(** [p|q]: the matches of [p] come first. *)
Definition alt {A} (p q : matcher A) : matcher A := fun s => (p s ++ q s)%list.

Notation "x <~ p ;; k" := (seq p (fun x => k))
  (at level 61, p at next level, right associativity).

(** A character class given by a range of code points, returning the
    offset in the range: [[0-9]] and [\d] return the digit. *)
Definition range (lo hi : ascii) : matcher Z :=
  fun s =>
    match s with
    | c :: r =>
        if (PyStr.code lo <=? PyStr.code c) && (PyStr.code c <=? PyStr.code hi)
        then [(PyStr.code c - PyStr.code lo, r)] else []
    | [] => []
    end.

Definition digit : matcher Z := range "0" "9".

(** A character class of digits from [lo] on, returning the digit. *)
Definition digits_from (lo hi : ascii) : matcher Z :=
  d <~ range lo hi ;; pure (d + (PyStr.code lo - PyStr.code "0"%char)).

Definition lit (c : ascii) : matcher unit :=
  fun s =>
    match s with
    | c' :: r => if Ascii.eqb c c' then [(tt, r)] else []
    | [] => []
    end.

(** A letter of the format, matched without regard to case. *)
Definition lit_nocase (c : ascii) : matcher unit :=
  fun s =>
    match s with
    | c' :: r =>
        if Ascii.eqb (PyStr.lower_char c) (PyStr.lower_char c')
        then [(tt, r)] else []
    | [] => []
    end.

(** [p?], greedy: the match with [p] comes first. *)
Definition opt {A} (p : matcher A) : matcher (option A) :=
  alt (a <~ p ;; pure (Some a)) (pure None).

Definition two (p q : matcher Z) : matcher Z :=
  a <~ p ;; b <~ q ;; pure (a * 10 + b).

(** [%Y]: [\d\d\d\d] *)
Definition dir_Y : matcher Z :=
  a <~ digit ;; b <~ digit ;; c <~ digit ;; d <~ digit ;;
  pure (((a * 10 + b) * 10 + c) * 10 + d).

(** [%m]: [1[0-2]|0[1-9]|[1-9]] *)
Definition dir_m : matcher Z :=
  alt (two (digits_from "1" "1") (digits_from "0" "2"))
 (alt (two (digits_from "0" "0") (digits_from "1" "9"))
      (digits_from "1" "9")).

(** [%d]: [3[0-1]|[1-2]\d|0[1-9]|[1-9]| [1-9]] *)
Definition dir_d : matcher Z :=
  alt (two (digits_from "3" "3") (digits_from "0" "1"))
 (alt (two (digits_from "1" "2") digit)
 (alt (two (digits_from "0" "0") (digits_from "1" "9"))
 (alt (digits_from "1" "9")
      (_ <~ lit " " ;; digits_from "1" "9")))).

(** [%H]: [2[0-3]|[0-1]\d|\d] *)
Definition dir_H : matcher Z :=
  alt (two (digits_from "2" "2") (digits_from "0" "3"))
 (alt (two (digits_from "0" "1") digit)
      digit).

(** [%M]: [[0-5]\d|\d] *)
Definition dir_M : matcher Z :=
  alt (two (digits_from "0" "5") digit) digit.

(** [%S]: [6[0-1]|[0-5]\d|\d] *)
Definition dir_S : matcher Z :=
  alt (two (digits_from "6" "6") (digits_from "0" "1"))
 (alt (two (digits_from "0" "5") digit)
      digit).

(** [\d{0,n}], greedy, returning the digits read. *)
Fixpoint digits_upto (n : nat) : matcher (list Z) :=
  match n with
  | O => pure []
  | S k => alt (d <~ digit ;; ds <~ digits_upto k ;; pure (d :: ds)) (pure [])
  end.

(** [\d{1,6}] *)
Definition digits_1_6 : matcher (list Z) :=
  d <~ digit ;; ds <~ digits_upto 5 ;; pure (d :: ds).

(** The digits read as a fraction of a second, in microseconds: the
    text is padded with zeros to six digits and read as a number. *)
Definition micros (ds : list Z) : Z :=
  fold_left (fun acc d => acc * 10 + d) ds 0
  * 10 ^ (6 - Z.of_nat (List.length ds)).

(** [%f]: [[0-9]{1,6}] *)
Definition dir_f : matcher Z := ds <~ digits_1_6 ;; pure (micros ds).

(** What [%z] matched: the sign, the hours and minutes, whether a
    colon stood between them, and the optional seconds (colon flag,
    seconds, fraction). *)
Record zone : Type := mk_zone {
  z_negative : bool;
  z_hours : Z;
  z_colon : bool;
  z_minutes : Z;
  z_seconds : option (bool * Z * option Z)
}.

Definition is_some {A} (o : option A) : bool :=
  match o with Some _ => true | None => false end.

(** [%z]: [[+-]\d\d:?[0-5]\d(:?[0-5]\d(\.\d{1,6})?)?|(?-i:Z)];
    the letter Z gives [None]. *)
Definition dir_z : matcher (option zone) :=
  alt (neg <~ alt (_ <~ lit "+" ;; pure false) (_ <~ lit "-" ;; pure true) ;;
       hh <~ two digit digit ;;
       c1 <~ opt (lit ":") ;;
       mm <~ two (digits_from "0" "5") digit ;;
       ss <~ opt (c2 <~ opt (lit ":") ;;
                  s <~ two (digits_from "0" "5") digit ;;
                  fr <~ opt (_ <~ lit "." ;; ds <~ digits_1_6 ;; pure (micros ds)) ;;
                  pure (is_some c2, s, fr)) ;;
       pure (Some (mk_zone neg hh (is_some c1) mm ss)))
      (_ <~ lit "Z" ;; pure None).

(** The offset in microseconds that [_strptime] computes from the
    text of [%z].  With a colon after the hours the colon before the
    seconds is demanded ("Inconsistent use of :"); without it the
    seconds are read at a fixed place, where a colon is no number. *)
Definition zone_offset (z : option zone) : result Z :=
  match z with
  | None => Ok 0
  | Some z =>
      let sign := if z_negative z then (-1) else 1 in
      match z_seconds z with
      | None => Ok (sign * ((z_hours z * 60 + z_minutes z) * 60 * us_per_second))
      | Some (c2, s, fr) =>
          if Bool.eqb (z_colon z) c2
          then Ok (sign * (((z_hours z * 60 + z_minutes z) * 60 + s) * us_per_second
                           + match fr with Some f => f | None => 0 end))
          else Raise ValueError
      end
  end.

(** The first match must reach the end of the string. *)
Definition full_match {A} (p : matcher A) (s : string) : result A :=
  match p (list_ascii_of_string s) with
  | (a, []) :: _ => Ok a
  | _ => Raise ValueError
  end.

(** The format ["%Y-%m-%d"] *)
Definition fmt_ymd : matcher (Z * Z * Z) :=
  y <~ dir_Y ;; _ <~ lit "-" ;; m <~ dir_m ;; _ <~ lit "-" ;; d <~ dir_d ;;
  pure (y, m, d).

(** The format ["%Y-%m-%dT%H:%M:%S.%f%z"] *)
Definition fmt_api : matcher (Z * Z * Z * (Z * Z * Z * Z) * option zone) :=
  y <~ dir_Y ;; _ <~ lit "-" ;; m <~ dir_m ;; _ <~ lit "-" ;; d <~ dir_d ;;
  _ <~ lit_nocase "T" ;;
  hh <~ dir_H ;; _ <~ lit ":" ;; mi <~ dir_M ;; _ <~ lit ":" ;; ss <~ dir_S ;;
  _ <~ lit "." ;; f <~ dir_f ;; z <~ dir_z ;;
  pure (y, m, d, (hh, mi, ss, f), z).

(** [datetime.strptime(s, "%Y-%m-%d")]: a naive datetime at midnight. *)
Definition strptime_ymd (s : string) : result datetime :=
  '(y, m, d) <- full_match fmt_ymd s ;;
  mk_datetime y m d 0 0 0 0.

(** [datetime.strptime(s, "%Y-%m-%dT%H:%M:%S.%f%z")]: the local time
    read and the offset of its [timezone], which must lie strictly
    within one day. *)
Definition strptime_api (s : string) : result (datetime * Z) :=
  '(y, m, d, (hh, mi, ss, f), z) <- full_match fmt_api s ;;
  off <- zone_offset z ;;
  if (- us_per_day <? off) && (off <? us_per_day)
  then (local <- mk_datetime y m d hh mi ss f ;; Ok (local, off))
  else Raise ValueError.

End Strptime.

(** ** Utilities of the script *)

(** [csv_list(s)] *)
Definition csv_list (s : string) : list string :=
  map PyStr.strip
      (filter (fun i => PyStr.truthy (PyStr.strip i)) (PyStr.split "," s)).

(** [parse_api_dt(s)]: [astimezone(timezone.utc)] subtracts the offset
    and raises [OverflowError] when the result leaves the range of
    [datetime]. *)
Definition parse_api_dt (s : string) : result datetime :=
  '(local, off) <- Strptime.strptime_api s ;;
  if in_range (local - off) then Ok (local - off) else Raise OverflowError.

(** [parse_date_ymd_utc(s, end_of_day)] *)
Definition parse_date_ymd_utc (s : string) (end_of_day : bool) : result datetime :=
  dt <- Strptime.strptime_ymd s ;;
  if end_of_day then replace_time dt 23 59 59 999000 else Ok dt.

(** A stable sort by a key that is compared with [le]: Python's
    [sorted] and [list.sort] are stable, and a stable sort has one
    possible result, the one of this insertion sort. *)
Fixpoint insert_by {A : Type} (le : A -> A -> bool) (x : A) (l : list A) : list A :=
  match l with
  | [] => [x]
  | y :: r => if le x y then x :: l else y :: insert_by le x r
  end.

Definition sort_by {A : Type} (le : A -> A -> bool) (l : list A) : list A :=
  fold_right (insert_by le) [] l.

(** ** JQL builders *)

Definition reserved_words : list string :=
  ["in"; "was"; "during"; "and"; "or"; "not"].

(** [quote_if_needed(value)] *)
Definition quote_if_needed (value : string) : string :=
  if negb (PyStr.truthy value) then PyStr.dquote ++ PyStr.dquote
  else if PyStr.any_space value || PyStr.mem (PyStr.lower value) reserved_words
       then PyStr.dquote ++ value ++ PyStr.dquote
       else value.

(** [wrap_users_for_jql(users, use_accountid)] *)
Definition wrap_users_for_jql (users : list string) (use_accountid : bool) : string :=
  PyStr.join ", "
    (map (fun u => if use_accountid
                   then "accountId(" ++ PyStr.dquote ++ u ++ PyStr.dquote ++ ")"
                   else quote_if_needed u) users).

Definition wrap_projects_for_jql (projects : list string) : string :=
  PyStr.join ", " projects.

Definition wrap_statuses_for_jql (statuses : list string) : string :=
  PyStr.join ", " (map quote_if_needed statuses).

(** [build_activity_jql(...)]; [users] and [extra] may be [None]. *)
Definition build_activity_jql (projects : list string) (date_from date_to : string)
    (inprog_statuses : list string) (users : option (list string))
    (use_accountid : bool) (extra : option string) : string :=
  let project_clause := "project in (" ++ wrap_projects_for_jql projects ++ ")" in
  let window := "(" ++ PyStr.dquote ++ date_from ++ PyStr.dquote ++ ", "
                ++ PyStr.dquote ++ date_to ++ PyStr.dquote ++ ")" in
  let status_changed := "status CHANGED DURING " ++ window in
  let in_progress_was :=
    "status WAS IN (" ++ wrap_statuses_for_jql inprog_statuses ++ ") DURING " ++ window in
  let activity_clause := "(" ++ status_changed ++ " OR " ++ in_progress_was ++ ")" in
  let users_clause :=
    match users with
    | Some (u :: us) =>
        ["assignee WAS IN (" ++ wrap_users_for_jql (u :: us) use_accountid
         ++ ") DURING " ++ window]
    | _ => []
    end in
  let extra_clause :=
    match extra with
    | Some e => if PyStr.truthy e then ["(" ++ e ++ ")"] else []
    | None => []
    end in
  PyStr.join " AND "
    ([project_clause; activity_clause] ++ users_clause ++ extra_clause)%list
  ++ " ORDER BY updated DESC".

(** ** Changelog paging: [get_assignee_changes]

    A JSON object of the service is a record of the keys the script
    reads.  A key that is absent is [None], and so is a null where the
    script reads the key without a default; a list that is absent is
    empty where the script reads it with the default [[]]. *)

Record response (A : Type) : Type := mk_response {
  status_code : Z;
  text : string;
  json : A
}.

Arguments mk_response {A}.
Arguments status_code {A}.
Arguments text {A}.
Arguments json {A}.

Record item : Type := mk_item {
  i_field : option string;
  i_from : option string;
  i_fromString : option string;
  i_to : option string;
  i_toString : option string
}.

Record history : Type := mk_history {
  h_created : option string;
  h_items : list item
}.

Record changelog_data : Type := mk_changelog {
  c_values : option (list history);
  c_histories : option (list history);
  c_total : option Z;
  c_isLast : option bool
}.

(** [data.get("values") or data.get("histories") or []] *)
Definition page_histories (data : changelog_data) : list history :=
  match c_values data with
  | Some (h :: t) => h :: t
  | _ => match c_histories data with
         | Some l => l
         | None => []
         end
  end.

(** The inner loop over [h.get("items", [])]: the entries appended for
    one history record. *)
Definition assignee_entries (created : datetime) (items : list item) : list change :=
  map (fun it => mk_change created (i_from it) (i_fromString it)
                           (i_to it) (i_toString it))
      (filter (fun it => match i_field it with
                         | Some f => String.eqb f "assignee"
                         | None => false
                         end) items).

(** The loop [for h in histories], from the list [changes] built so
    far. *)
Fixpoint scan_histories (hs : list history) (changes : list change)
  : result (list change) :=
  match hs with
  | [] => Ok changes
  | h :: rest =>
      match h_created h with
      | Some created =>
          if PyStr.truthy created
          then (created_dt <- parse_api_dt created ;;
                scan_histories rest
                  (changes ++ assignee_entries created_dt (h_items h))%list)
          else scan_histories rest changes
      | None => scan_histories rest changes
      end
  end.

Definition max_results : Z := 100.

(** The line printed on stderr when a page is refused. *)
Definition changelog_error (r : response changelog_data) (issue_key : string) : string :=
  "ERROR " ++ PyStr.of_int (status_code r) ++ " fetching changelog for "
  ++ issue_key ++ ": " ++ text r.

(** The loop [while True] of [get_assignee_changes]; [get start_at] is
    the answer of the service to the request for the page at
    [start_at].  The result is the list [changes] at the exit of the
    loop and the lines printed on stderr. *)
Fixpoint changelog_loop (get : Z -> response changelog_data) (issue_key : string)
    (fuel : nat) (start_at : Z) (changes : list change)
  : result (list change * list string) :=
  match fuel with
  | O => OutOfFuel
  | S fuel' =>
      let r := get start_at in
      if negb (status_code r =? 200)
      then Ok (changes, [changelog_error r issue_key])
      else
        let data := json r in
        changes' <- scan_histories (page_histories data) changes ;;
        match c_total data with
        | None =>
            if negb (match c_isLast data with Some b => b | None => true end)
            then changelog_loop get issue_key fuel' (start_at + max_results) changes'
            else Ok (changes', [])
        | Some total =>
            if start_at + max_results >=? total
            then Ok (changes', [])
            else changelog_loop get issue_key fuel' (start_at + max_results) changes'
        end
  end.

Definition change_le (a b : change) : bool := created_dt a <=? created_dt b.

(** [get_assignee_changes(session, base, issue_key)]: the sorted
    changes, and the lines printed on stderr. *)
Definition get_assignee_changes (get : Z -> response changelog_data)
    (issue_key : string) (fuel : nat) : result (list change * list string) :=
  '(changes, err) <- changelog_loop get issue_key fuel 0 [] ;;
  Ok (sort_by change_le changes, err).

(** ** Window intersection: the second half of
    [compute_assignee_window_info] *)

(** An element of [holders]. *)
Record holder : Type := mk_holder {
  h_id : option string;
  h_name : option string;
  overlap_start : datetime;
  overlap_end : datetime
}.

(** The holder appended for an interval that overlaps the window. *)
Definition holder_of (iv : interval) (window_start window_end : datetime) : holder :=
  mk_holder (iv_id iv) (iv_name iv)
            (Z.max (iv_start iv) window_start)
            (Z.min (iv_end iv) window_end).

(** The list [holders] after the loop [for iv in intervals]. *)
Definition holders (ivs : list interval) (window_start window_end : datetime)
  : list holder :=
  map (fun iv => holder_of iv window_start window_end)
      (filter (fun iv => overlaps (iv_start iv) (iv_end iv) window_start window_end)
              ivs).

(** The sort key [(h["overlap_start"], h["overlap_end"])], compared as
    tuples are. *)
Definition holder_le (a b : holder) : bool :=
  (overlap_start a <? overlap_start b)
  || ((overlap_start a =? overlap_start b) && (overlap_end a <=? overlap_end b)).

Definition holders_sorted (hs : list holder) : list holder := sort_by holder_le hs.

Definition opt_string_eqb (a b : option string) : bool :=
  match a, b with
  | Some x, Some y => String.eqb x y
  | None, None => true
  | _, _ => false
  end.

(** [key in seen] for the keys [(h["id"], h["name"])]. *)
Definition key_seen (k : option string * option string)
    (seen : list (option string * option string)) : bool :=
  existsb (fun k' => opt_string_eqb (fst k) (fst k') && opt_string_eqb (snd k) (snd k'))
          seen.

(** The loop that fills [unique], from the set [seen]. *)
Fixpoint unique_from (seen : list (option string * option string)) (hs : list holder)
  : list holder :=
  match hs with
  | [] => []
  | h :: r =>
      let key := (h_id h, h_name h) in
      if key_seen key seen then unique_from seen r
      else h :: unique_from (key :: seen) r
  end.

Definition unique (hs : list holder) : list holder := unique_from [] hs.

(** The strings of a list of optional strings that are neither [None]
    nor empty: [[x for x in xs if x]]. *)
Fixpoint truthy_strings (xs : list (option string)) : list string :=
  match xs with
  | [] => []
  | Some s :: r => if PyStr.truthy s then s :: truthy_strings r else truthy_strings r
  | None :: r => truthy_strings r
  end.

(** The dictionary returned by [compute_assignee_window_info]. *)
Record window_info : Type := mk_window_info {
  assignees_during_window_display : string;
  assignees_during_window_accountIds : string;
  first_assignee_in_window : option string;
  last_assignee_in_window : option string;
  win_holders : list holder
}.

(** [unique[0]["name"]] if [unique] is not empty, else the empty
    string. *)
Definition first_name (u : list holder) : option string :=
  match u with
  | h :: _ => h_name h
  | [] => Some EmptyString
  end.

(** [unique[-1]["name"]] if [unique] is not empty, else the empty
    string. *)
Definition last_name (u : list holder) : option string :=
  match u with
  | h :: _ => h_name (List.last u h)
  | [] => Some EmptyString
  end.

(** [compute_assignee_window_info(issue_fields, assignee_changes,
    window_start, window_end)] *)
Definition compute_assignee_window_info (f : issue_fields)
    (assignee_changes : list change) (window_start window_end : datetime)
  : result window_info :=
  ivs <- intervals f assignee_changes ;;
  let u := unique (holders_sorted (holders ivs window_start window_end)) in
  Ok (mk_window_info
        (PyStr.join ", " (truthy_strings (map h_name u)))
        (PyStr.join ", " (truthy_strings (map h_id u)))
        (first_name u)
        (last_name u)
        u).

(** ** User-filter matching *)

(** [h["name"] or h["id"]], where [h["id"]] is the string [i]. *)
Definition name_or (h : holder) (i : string) : string :=
  match h_name h with
  | Some n => if PyStr.truthy n then n else i
  | None => i
  end.

(** [h["name"]], or the empty string when it is [None]. *)
Definition name_or_empty (h : holder) : string :=
  match h_name h with
  | Some n => n
  | None => EmptyString
  end.

(** What the loop [for h in holders] appends to [out] for one holder:
    nothing, or one string. *)
Definition matched (users_norm : list string) (use_accountid : bool) (h : holder)
  : list string :=
  if use_accountid then
    match h_id h with
    | Some i =>
        if PyStr.truthy i && PyStr.mem (PyStr.lower i) users_norm
        then [name_or h i] else []
    | None => []
    end
  else
    let nm := PyStr.lower (name_or_empty h) in
    if PyStr.truthy nm && PyStr.mem nm users_norm then [name_or_empty h] else [].

(** The loop that fills [out_unique], from the set [seen]. *)
Fixpoint out_unique_from (seen : list string) (out : list string) : list string :=
  match out with
  | [] => []
  | x :: r =>
      if PyStr.mem x seen then out_unique_from seen r
      else x :: out_unique_from (x :: seen) r
  end.

(** [users_norm] *)
Definition users_norm (users : list string) : list string :=
  map (fun u => PyStr.lower (PyStr.strip u)) users.

(** The list [out_unique] of [match_holders_to_user_filter], for a
    filter that is not empty. *)
Definition out_unique (hs : list holder) (users : list string) (use_accountid : bool)
  : list string :=
  out_unique_from [] (flat_map (matched (users_norm users) use_accountid) hs).

(** [match_holders_to_user_filter(holders, users, use_accountid)];
    [users] is a list or [None]. *)
Definition match_holders_to_user_filter (hs : list holder)
    (users : option (list string)) (use_accountid : bool) : string :=
  match users with
  | Some (u :: us) => PyStr.join ", " (out_unique hs (u :: us) use_accountid)
  | _ => EmptyString
  end.

(** ** The run: [search_issues] and [main] *)

Record issue : Type := mk_issue {
  key : string;
  fields : issue_fields
}.

Record search_data : Type := mk_search {
  s_issues : list issue;
  s_isLast : option bool;
  s_nextPageToken : option string
}.

(** The surroundings of a run: the environment variables and the
    answers of the service to the two kinds of request. *)
Record world : Type := mk_world {
  getenv : string -> option string;
  search_post : string -> option string -> response search_data;
  changelog_get : string -> Z -> response changelog_data
}.

(** The parsed command line. *)
Record args : Type := mk_args {
  a_projects : string;
  date_from : string;
  date_to : string;
  in_progress_statuses : string;
  a_users : string;
  use_accountid : bool;
  extra_jql : option string;
  a_csv : string
}.

Record row : Type := mk_row {
  r_key : string;
  r_summary : string;
  r_project : string;
  r_type : string;
  r_status : string;
  r_assignee_display : string;
  r_assignee_accountId : string;
  r_assignees_during_window_display : string;
  r_assignees_during_window_accountIds : string;
  r_matched_assignees_during_window : string;
  r_first_assignee_in_window : option string;
  r_last_assignee_in_window : option string;
  r_created : string;
  r_updated : string;
  r_resolved : string
}.

(** [env(name)] *)
Definition env (w : world) (name : string) : result string :=
  match getenv w name with
  | Some v => if PyStr.truthy v then Ok v else Raise (SystemExit 1)
  | None => Raise (SystemExit 1)
  end.

(** [jira_session()]: the three variables are read in this order; the
    session is its credentials, and the base URL loses its final
    slashes. *)
Definition jira_session (w : world) : result (string * string * string) :=
  email <- env w "JIRA_EMAIL" ;;
  token <- env w "JIRA_API_TOKEN" ;;
  base <- env w "JIRA_BASE_URL" ;;
  Ok (email, token, PyStr.rstrip_char "/" base).

Definition or_empty (o : option string) : string :=
  match o with
  | Some s => s
  | None => EmptyString
  end.

(** The dictionary [row] built for one issue. *)
Definition make_row (it : issue) (win : window_info) (matched_names : string) : row :=
  let f := fields it in
  let assignee := match f_assignee f with
                  | Some u => u
                  | None => mk_user None None
                  end in
  mk_row (key it)
         (or_empty (f_summary f))
         (or_empty (f_project_key f))
         (or_empty (f_issuetype_name f))
         (or_empty (f_status_name f))
         (or_empty (displayName assignee))
         (or_empty (accountId assignee))
         (assignees_during_window_display win)
         (assignees_during_window_accountIds win)
         matched_names
         (first_assignee_in_window win)
         (last_assignee_in_window win)
         (or_empty (f_created f))
         (or_empty (f_updated f))
         (or_empty (f_resolutiondate f)).

(** The body of the loop of [main] for one issue: the row, and the
    lines its changelog requests print on stderr. *)
Definition process_issue (w : world) (users : option (list string))
    (accountid : bool) (window_start window_end : datetime) (fuel : nat)
    (it : issue) : result (row * list string) :=
  '(changes, err) <- get_assignee_changes (changelog_get w (key it)) (key it) fuel ;;
  win <- compute_assignee_window_info (fields it) changes window_start window_end ;;
  let matched_names :=
    match_holders_to_user_filter (win_holders win) users accountid in
  Ok (make_row it win matched_names, err).

(** The issues of one page of the search, in order. *)
Fixpoint process_issues (w : world) (users : option (list string))
    (accountid : bool) (window_start window_end : datetime) (fuel : nat)
    (its : list issue) (rows : list row) (err : list string)
  : result (list row * list string) :=
  match its with
  | [] => Ok (rows, err)
  | it :: rest =>
      '(r, e) <- process_issue w users accountid window_start window_end fuel it ;;
      process_issues w users accountid window_start window_end fuel rest
                     (rows ++ [r])%list (err ++ e)%list
  end.

(** The loop of [main] over the generator [search_issues]: a page is
    requested when the issues of the page before have been processed,
    and a refused page ends the run with [sys.exit(2)]. *)
Fixpoint search_loop (w : world) (jql : string) (users : option (list string))
    (accountid : bool) (window_start window_end : datetime)
    (fuel_changelog : nat) (fuel : nat) (next_token : option string)
    (rows : list row) (err : list string) : result (list row * list string) :=
  match fuel with
  | O => OutOfFuel
  | S fuel' =>
      let r := search_post w jql next_token in
      if negb (status_code r =? 200) then Raise (SystemExit 2)
      else
        let data := json r in
        '(rows', err') <- process_issues w users accountid window_start window_end
                                         fuel_changelog (s_issues data) rows err ;;
        if match s_isLast data with Some b => b | None => false end
        then Ok (rows', err')
        else match s_nextPageToken data with
             | Some t =>
                 if PyStr.truthy t
                 then search_loop w jql users accountid window_start window_end
                                  fuel_changelog fuel' (Some t) rows' err'
                 else Ok (rows', err')
             | None => Ok (rows', err')
             end
  end.

(** [users] in [main]: [csv_list(args.users) if args.users else None] *)
Definition users_of (a : args) : option (list string) :=
  if PyStr.truthy (a_users a) then Some (csv_list (a_users a)) else None.

(** [jql] in [main] *)
Definition jql_of (a : args) : string :=
  build_activity_jql (csv_list (a_projects a)) (date_from a) (date_to a)
    (csv_list (in_progress_statuses a)) (users_of a) (use_accountid a) (extra_jql a).

(** [main()], up to the printing of the rows: the list [rows] and the
    lines printed on stderr by the changelog requests. *)
Definition main (w : world) (a : args) (fuel : nat) : result (list row * list string) :=
  match csv_list (a_projects a) with
  | [] => Raise (SystemExit 1)
  | _ =>
      match csv_list (in_progress_statuses a) with
      | [] => Raise (SystemExit 1)
      | _ =>
          let users := users_of a in
          let jql := jql_of a in
          _ <- jira_session w ;;
          window_start <- parse_date_ymd_utc (date_from a) false ;;
          window_end <- parse_date_ymd_utc (date_to a) true ;;
          search_loop w jql users (use_accountid a) window_start window_end
                      fuel fuel None [] []
      end
  end.

(** ** The timeline as the specification words it *)

Definition spec_first (e : change) : interval :=
  mk_interval dt_min (created_dt e - 1) (from_id e) (from_name e).

Definition spec_pair (a b : change) : interval :=
  mk_interval (created_dt a) (created_dt b - 1) (to_id a) (to_name a).

Definition spec_last (e : change) : interval :=
  mk_interval (created_dt e) dt_max (to_id e) (to_name e).

Fixpoint spec_pairs (evs : list change) : list interval :=
  match evs with
  | a :: ((b :: _) as rest) => spec_pair a b :: spec_pairs rest
  | _ => []
  end.

(** The intervals from the first change on: one for each pair of
    neighbours, then the one that lasts until the end of time. *)
Fixpoint spec_tail (e : change) (rest : list change) : list interval :=
  match rest with
  | [] => [spec_last e]
  | b :: rest' => spec_pair e b :: spec_tail b rest'
  end.

Definition spec_timeline (evs : list change) : list interval :=
  match evs with
  | e :: rest => spec_first e :: spec_tail e rest
  | [] => []
  end.

(** Events in ascending order of time; equal instants are allowed. *)
Definition chronological (evs : list change) : Prop :=
  Sorted (fun a b => created_dt a <= created_dt b) evs.

(** Every timestamp is a value of [datetime]. *)
Definition representable (evs : list change) : Prop :=
  Forall (fun e => dt_min <= created_dt e <= dt_max) evs.

(** The invariant of a timeline: it starts at the beginning of time,
    ends at the end of time, each interval ends one microsecond before
    the next one starts, no two intervals overlap, and every instant
    lies in one of them. *)
Record contiguous_cover (ivs : list interval) : Prop := {
  cc_first : exists iv r, ivs = iv :: r /\ iv_start iv = dt_min;
  cc_last : exists r iv, ivs = (r ++ [iv])%list /\ iv_end iv = dt_max;
  cc_adjacent : forall i a b,
      nth_error ivs i = Some a -> nth_error ivs (S i) = Some b ->
      iv_end a = iv_start b - 1;
  cc_disjoint : forall i j a b,
      (i < j)%nat -> nth_error ivs i = Some a -> nth_error ivs j = Some b ->
      overlaps (iv_start a) (iv_end a) (iv_start b) (iv_end b) = false;
  cc_cover : forall t, dt_min <= t <= dt_max ->
      exists iv, In iv ivs /\ iv_start iv <= t <= iv_end iv
}.

(** ** Scenarios and auxiliary notions *)

(** The scenario of the specification: one change on 2025-07-02 at
    10:00 UTC, from Alice to Bob. *)
Definition t_2025_07_02_10h : datetime := 63887047200000000.

Definition alice_to_bob : change :=
  mk_change t_2025_07_02_10h (Some "u-alice") (Some "Alice")
            (Some "u-bob") (Some "Bob").

Definition no_fields : issue_fields :=
  mk_fields None None None None None None None None.

(** A change stamped [datetime.min]: subtracting one microsecond from
    it raises [OverflowError], so that no interval is built. *)
Definition change_at_min : change :=
  mk_change dt_min (Some "u-alice") (Some "Alice") (Some "u-bob") (Some "Bob").

(** The identity field the mode selects, and the string shown for a
    holder that matches on the field [s]. *)
Definition selected (accountid : bool) (h : holder) : option string :=
  if accountid then h_id h else h_name h.

Definition shown (accountid : bool) (h : holder) (s : string) : string :=
  if accountid then name_or h s else s.

(** What [main] needs to reach its loop: non-empty lists of projects
    and statuses, the three environment variables, and two dates that
    parse, to [window_start] and [window_end]. *)
Definition ready (w : world) (a : args) (window_start window_end : datetime) : Prop :=
  csv_list (a_projects a) <> []
  /\ csv_list (in_progress_statuses a) <> []
  /\ (exists s, jira_session w = Ok s)
  /\ parse_date_ymd_utc (date_from a) false = Ok window_start
  /\ parse_date_ymd_utc (date_to a) true = Ok window_end.

(** A service with one issue, assigned to Carol. *)
Definition carol : user := mk_user (Some "u-carol") (Some "Carol").

Definition issue_tbr1 : issue :=
  mk_issue "TBR-1"
    (mk_fields (Some "Fix login") (Some carol) (Some "TBR") (Some "Bug")
               (Some "In Progress") (Some "2025-06-30T08:00:00.000+0000")
               (Some "2025-07-02T10:00:00.000+0000") None).

Definition env_set (name : string) : option string :=
  if String.eqb name "JIRA_EMAIL" then Some "me@example.org"
  else if String.eqb name "JIRA_API_TOKEN" then Some "secret"
  else if String.eqb name "JIRA_BASE_URL" then Some "https://example.atlassian.net/"
  else None.

Definition one_issue (jql : string) (next_token : option string)
  : response search_data :=
  mk_response 200 EmptyString (mk_search [issue_tbr1] (Some true) None).

Definition assignee_item : item :=
  mk_item (Some "assignee") (Some "u-alice") (Some "Alice") (Some "u-bob") (Some "Bob").

Definition good_history : history :=
  mk_history (Some "2025-07-02T10:00:00.000+0000") [assignee_item].

Definition bad_history : history :=
  mk_history (Some "yesterday") [assignee_item].

(** A changelog without any record. *)
Definition changelog_empty (issue_key : string) (start_at : Z)
  : response changelog_data :=
  mk_response 200 EmptyString (mk_changelog (Some []) None (Some 0) None).

(** A changelog whose only page holds a record with a malformed
    timestamp, then a well-formed one. *)
Definition changelog_malformed (issue_key : string) (start_at : Z)
  : response changelog_data :=
  mk_response 200 EmptyString
    (mk_changelog (Some [bad_history; good_history]) None (Some 2) None).

(** The same page without the malformed record. *)
Definition changelog_wellformed (issue_key : string) (start_at : Z)
  : response changelog_data :=
  mk_response 200 EmptyString
    (mk_changelog (Some [good_history]) None (Some 1) None).

(** A changelog of 150 records whose first page is served and whose
    second page is refused. *)
Definition changelog_second_page_refused (issue_key : string) (start_at : Z)
  : response changelog_data :=
  if start_at =? 0
  then mk_response 200 EmptyString
         (mk_changelog (Some [good_history]) None (Some 150) None)
  else mk_response 500 "boom" (mk_changelog None None None None).

(** A changelog whose first page is refused. *)
Definition changelog_refused (issue_key : string) (start_at : Z)
  : response changelog_data :=
  mk_response 500 "boom" (mk_changelog None None None None).

Definition args_july : args :=
  mk_args "TBR" "2025-07-01" "2025-07-03" "In Progress" EmptyString false None
          EmptyString.

(** The two dates exchanged: the window ends before it starts. *)
Definition args_inverted : args :=
  mk_args "TBR" "2025-07-03" "2025-07-01" "In Progress" EmptyString false None
          EmptyString.

Definition world_empty : world := mk_world env_set one_issue changelog_empty.
Definition world_malformed : world := mk_world env_set one_issue changelog_malformed.
Definition world_wellformed : world := mk_world env_set one_issue changelog_wellformed.
Definition world_second_page_refused : world :=
  mk_world env_set one_issue changelog_second_page_refused.
Definition world_refused : world := mk_world env_set one_issue changelog_refused.

Definition d_2025_07_01 : datetime := 63886924800000000.
Definition d_2025_07_03 : datetime := 63887097600000000.
Definition d_2025_07_01_end : datetime := 63887011199999000.
Definition d_2025_07_03_end : datetime := 63887183999999000.

(** A string without a comma, and an entry as [csv_list] returns them:
    not empty, without white space at either end, without a comma. *)
Definition no_comma (s : string) : bool :=
  negb (existsb (Ascii.eqb ",") (list_ascii_of_string s)).

Definition clean_entry (s : string) : Prop :=
  s <> EmptyString /\ PyStr.strip s = s /\ no_comma s = true.

(** A service that never says that a page is the last one. *)
Definition changelog_endless (issue_key : string) (start_at : Z)
  : response changelog_data :=
  mk_response 200 EmptyString (mk_changelog (Some [good_history]) None None (Some false)).

(** The key [(h["id"], h["name"])] by which holders are told apart. *)
Definition holder_key (h : holder) : option string * option string :=
  (h_id h, h_name h).

(** A search of two pages, the second of which is refused. *)
Definition two_pages_second_refused (jql : string) (next_token : option string)
  : response search_data :=
  match next_token with
  | None => mk_response 200 EmptyString (mk_search [issue_tbr1] (Some false) (Some "p2"))
  | Some _ => mk_response 503 "unavailable" (mk_search [] None None)
  end.

Definition world_search_refused : world :=
  mk_world env_set two_pages_second_refused changelog_empty.

Definition args_bad_date : args :=
  mk_args "TBR" "2025-07-01" "03/07/2025" "In Progress" EmptyString false None
          EmptyString.

(** Two further changes of the scenario: on to Carol at the very
    instant of the first change, and on to Dave an hour later. *)
Definition t_2025_07_02_11h : datetime := t_2025_07_02_10h + 3600 * us_per_second.

Definition bob_to_carol : change :=
  mk_change t_2025_07_02_10h (Some "u-bob") (Some "Bob")
            (Some "u-carol") (Some "Carol").

Definition carol_to_dave : change :=
  mk_change t_2025_07_02_11h (Some "u-carol") (Some "Carol")
            (Some "u-dave") (Some "Dave").

Definition three_changes : list change := [alice_to_bob; bob_to_carol; carol_to_dave].

(** Whether the paging loop of [get_assignee_changes] asks for another
    page after the page [data] that it requested at [start_at]. *)
Definition more_pages (data : changelog_data) (start_at : Z) : bool :=
  match c_total data with
  | None => negb (match c_isLast data with Some b => b | None => true end)
  | Some total => negb (start_at + max_results >=? total)
  end.

(** [changelog_reaches get n start_at changes]: the paging loop stands
    at [start_at] with the list [changes] after [n] pages that were
    served, parsed and asked for more. *)
Inductive changelog_reaches (get : Z -> response changelog_data)
  : nat -> Z -> list change -> Prop :=
| reaches_first : changelog_reaches get 0 0 []
| reaches_next n start_at changes changes' :
    changelog_reaches get n start_at changes ->
    status_code (get start_at) = 200 ->
    scan_histories (page_histories (json (get start_at))) changes = Ok changes' ->
    more_pages (json (get start_at)) start_at = true ->
    changelog_reaches get (S n) (start_at + max_results) changes'.

(** The token with which [search_issues] asks for the page after
    [data], if it does. *)
Definition next_search (data : search_data) : option string :=
  if match s_isLast data with Some b => b | None => false end then None
  else match s_nextPageToken data with
       | Some t => if PyStr.truthy t then Some t else None
       | None => None
       end.

(** [search_reaches ... n next_token rows err]: the loop of [main]
    stands before the request with [next_token], with [rows] and the
    lines [err], after [n] search pages that were served, whose issues
    were all processed, and that asked for more. *)
Inductive search_reaches (w : world) (jql : string) (users : option (list string))
    (accountid : bool) (window_start window_end : datetime) (fuel_changelog : nat)
  : nat -> option string -> list row -> list string -> Prop :=
| search_first :
    search_reaches w jql users accountid window_start window_end fuel_changelog
                   0 None [] []
| search_next n next_token rows err rows' err' t :
    search_reaches w jql users accountid window_start window_end fuel_changelog
                   n next_token rows err ->
    status_code (search_post w jql next_token) = 200 ->
    process_issues w users accountid window_start window_end fuel_changelog
                   (s_issues (json (search_post w jql next_token))) rows err
    = Ok (rows', err') ->
    next_search (json (search_post w jql next_token)) = Some t ->
    search_reaches w jql users accountid window_start window_end fuel_changelog
                   (S n) (Some t) rows' err'.

(** A second issue, and a service of two search pages with one issue
    each.  The changelog of the first issue is one page; the one of the
    second issue has 150 records, and its second page holds a record
    with a malformed timestamp. *)
Definition issue_tbr2 : issue :=
  mk_issue "TBR-2"
    (mk_fields (Some "Fix logout") (Some carol) (Some "TBR") (Some "Bug")
               (Some "In Progress") (Some "2025-06-30T09:00:00.000+0000")
               (Some "2025-07-02T11:00:00.000+0000") None).

Definition two_pages (jql : string) (next_token : option string)
  : response search_data :=
  match next_token with
  | None => mk_response 200 EmptyString (mk_search [issue_tbr1] (Some false) (Some "p2"))
  | Some _ => mk_response 200 EmptyString (mk_search [issue_tbr2] (Some true) None)
  end.

Definition changelog_late_malformed (issue_key : string) (start_at : Z)
  : response changelog_data :=
  if String.eqb issue_key "TBR-1"
  then mk_response 200 EmptyString
         (mk_changelog (Some [good_history]) None (Some 1) None)
  else if start_at =? 0
       then mk_response 200 EmptyString
              (mk_changelog (Some [good_history]) None (Some 150) None)
       else mk_response 200 EmptyString
              (mk_changelog (Some [bad_history]) None (Some 150) None).

Definition world_late_malformed : world :=
  mk_world env_set two_pages changelog_late_malformed.

(** A page of three records that are not in order of time, two of
    them with the same timestamp. *)
Definition carol_item : item :=
  mk_item (Some "assignee") (Some "u-bob") (Some "Bob") (Some "u-carol") (Some "Carol").

Definition dave_item : item :=
  mk_item (Some "assignee") (Some "u-carol") (Some "Carol") (Some "u-dave") (Some "Dave").

Definition status_item : item :=
  mk_item (Some "status") (Some "1") (Some "To Do") (Some "3") (Some "In Progress").

Definition changelog_unordered (issue_key : string) (start_at : Z)
  : response changelog_data :=
  mk_response 200 EmptyString
    (mk_changelog
       (Some [mk_history (Some "2025-07-02T11:00:00.000+0000") [dave_item; status_item];
              mk_history (Some "2025-07-02T10:00:00.000+0000") [assignee_item];
              mk_history (Some "2025-07-02T12:00:00.000+0200") [carol_item]])
       None (Some 3) None).

(** * Properties *)

Section Timeline.

Lemma sub_microseconds_ok t n :
  dt_min <= t - n <= dt_max -> sub_microseconds t n = Ok (t - n).
Proof.
  intros H. unfold sub_microseconds, in_range.
  destruct (Z.leb_spec dt_min (t - n)); [|lia].
  destruct (Z.leb_spec (t - n) dt_max); [reflexivity|lia].
Qed.

Lemma sub_microseconds_inv t n r :
  sub_microseconds t n = Ok r -> r = t - n /\ dt_min <= t - n <= dt_max.
Proof.
  unfold sub_microseconds, in_range.
  destruct (Z.leb_spec dt_min (t - n)), (Z.leb_spec (t - n) dt_max);
    simpl; intros E; inversion E; subst; lia.
Qed.

Lemma sub_microseconds_min : sub_microseconds dt_min 1 = Raise OverflowError.
Proof. reflexivity. Qed.

Lemma between_changes_cons a b r :
  between_changes (a :: b :: r) =
  (e <- sub_microseconds (created_dt b) 1 ;;
   ivs <- between_changes (b :: r) ;;
   Ok (mk_interval (created_dt a) e (to_id a) (to_name a) :: ivs)).
Proof. reflexivity. Qed.

Lemma spec_pairs_cons a b r :
  spec_pairs (a :: b :: r) = spec_pair a b :: spec_pairs (b :: r).
Proof. reflexivity. Qed.

Lemma between_changes_inv cs ivs :
  between_changes cs = Ok ivs -> ivs = spec_pairs cs.
Proof.
  revert ivs. induction cs as [|a [|b r] IH]; intros ivs H.
  - inversion H; reflexivity.
  - inversion H; reflexivity.
  - rewrite between_changes_cons in H. rewrite spec_pairs_cons.
    destruct (sub_microseconds (created_dt b) 1) as [e| |] eqn:E; try discriminate.
    cbn [bind] in H.
    destruct (between_changes (b :: r)) as [ivs'| |] eqn:B; try discriminate.
    cbn [bind] in H. inversion H; subst.
    apply sub_microseconds_inv in E. destruct E as [-> _].
    unfold spec_pair. f_equal. apply IH. reflexivity.
Qed.

Lemma between_changes_ok a cs :
  Forall (fun e => dt_min < created_dt e <= dt_max) cs ->
  between_changes (a :: cs) = Ok (spec_pairs (a :: cs)).
Proof.
  revert a. induction cs as [|b r IH]; intros a Hcs.
  - reflexivity.
  - inversion Hcs as [|? ? Hb Hr]; subst.
    rewrite between_changes_cons, spec_pairs_cons.
    rewrite sub_microseconds_ok by (unfold dt_min in *; lia).
    cbn [bind]. rewrite (IH b Hr). reflexivity.
Qed.

Lemma last_default (l : list change) x y : l <> [] -> last l x = last l y.
Proof.
  induction l as [|z [|z' l] IHl]; intros Hl; [congruence|reflexivity|].
  change (last (z :: z' :: l) x) with (last (z' :: l) x).
  change (last (z :: z' :: l) y) with (last (z' :: l) y).
  apply IHl. discriminate.
Qed.

Lemma spec_tail_pairs e rest :
  spec_tail e rest = (spec_pairs (e :: rest) ++ [spec_last (last (e :: rest) e)])%list.
Proof.
  revert e. induction rest as [|b r IH]; intros e.
  - reflexivity.
  - cbn [spec_tail spec_pairs]. rewrite IH.
    change (last (e :: b :: r) e) with (last (b :: r) e).
    rewrite (last_default (b :: r) e b) by discriminate. reflexivity.
Qed.

Lemma intervals_inv f e rest ivs :
  intervals f (e :: rest) = Ok ivs ->
  ivs = spec_timeline (e :: rest) /\ dt_min < created_dt e.
Proof.
  unfold intervals. intros H.
  destruct (sub_microseconds (created_dt e) 1) as [x| |] eqn:E; try discriminate.
  cbn [bind] in H.
  destruct (between_changes (e :: rest)) as [mids| |] eqn:B; try discriminate.
  cbn [bind] in H. inversion H; subst; clear H.
  apply sub_microseconds_inv in E. destruct E as [-> E].
  apply between_changes_inv in B. subst mids.
  unfold spec_timeline. rewrite spec_tail_pairs.
  split; [reflexivity | lia].
Qed.

Lemma intervals_ok f e rest :
  Forall (fun c => dt_min < created_dt c <= dt_max) (e :: rest) ->
  intervals f (e :: rest) = Ok (spec_timeline (e :: rest)).
Proof.
  intros H. inversion H as [|? ? He Hr]; subst.
  unfold intervals.
  rewrite sub_microseconds_ok by (unfold dt_min in *; lia).
  cbn [bind]. rewrite between_changes_ok by assumption.
  cbn [bind]. unfold spec_timeline. rewrite spec_tail_pairs. reflexivity.
Qed.

Lemma intervals_overflow f e rest :
  created_dt e = dt_min -> intervals f (e :: rest) = Raise OverflowError.
Proof.
  intros H. unfold intervals. rewrite H, sub_microseconds_min. reflexivity.
Qed.

(** A chronological list whose first event is later than the
    beginning of time has all its events later. *)
Lemma chronological_later e rest :
  chronological (e :: rest) -> representable (e :: rest) ->
  dt_min < created_dt e ->
  Forall (fun c => dt_min < created_dt c <= dt_max) (e :: rest).
Proof.
  intros Hs Hr He.
  apply Sorted_StronglySorted in Hs; [|intros x y z; lia].
  apply StronglySorted_inv in Hs. destruct Hs as [_ Hall].
  unfold representable in Hr.
  inversion Hr as [|? ? Hre Hrr]; subst.
  constructor; [lia|].
  rewrite Forall_forall in *. intros c Hc.
  specialize (Hall c Hc). specialize (Hrr c Hc). cbv beta in *. lia.
Qed.

Lemma spec_tail_length e rest : List.length (spec_tail e rest) = S (List.length rest).
Proof.
  revert e. induction rest as [|b r IH]; intros e; [reflexivity|].
  cbn [spec_tail List.length]. now rewrite IH.
Qed.

Lemma spec_tail_head e rest :
  exists iv r, spec_tail e rest = iv :: r /\ iv_start iv = created_dt e.
Proof. destruct rest; cbn [spec_tail]; eauto. Qed.

Lemma spec_tail_end e rest :
  exists r iv, spec_tail e rest = (r ++ [iv])%list /\ iv_end iv = dt_max.
Proof.
  revert e. induction rest as [|b r IH]; intros e.
  - exists [], (spec_last e). split; reflexivity.
  - destruct (IH b) as (r' & iv & Heq & Hend).
    exists (spec_pair e b :: r'), iv. cbn [spec_tail]. rewrite Heq. auto.
Qed.

Lemma spec_tail_adjacent e rest i a b :
  nth_error (spec_tail e rest) i = Some a ->
  nth_error (spec_tail e rest) (S i) = Some b ->
  iv_end a = iv_start b - 1.
Proof.
  revert e i. induction rest as [|c r IH]; intros e i Ha Hb.
  - destruct i; cbn in Hb; [discriminate | destruct i; discriminate].
  - cbn [spec_tail] in *. destruct i as [|i].
    + cbn in Ha. inversion Ha; subst a.
      cbn [nth_error] in Hb.
      destruct (spec_tail_head c r) as (iv & r' & Heq & Hs).
      rewrite Heq in Hb. cbn in Hb. inversion Hb; subst b.
      rewrite Hs. reflexivity.
    + cbn [nth_error] in Ha, Hb. eapply IH; eassumption.
Qed.

Lemma spec_tail_starts e rest :
  StronglySorted (fun a b => created_dt a <= created_dt b) (e :: rest) ->
  forall iv, In iv (spec_tail e rest) -> created_dt e <= iv_start iv.
Proof.
  revert e. induction rest as [|c r IH]; intros e Hs iv Hin.
  - cbn in Hin. destruct Hin as [<-|[]]. cbn [spec_last iv_start]. lia.
  - cbn [spec_tail] in Hin. destruct Hin as [<-|Hin]; [cbn [spec_last spec_pair spec_first iv_start iv_end]; lia|].
    apply StronglySorted_inv in Hs. destruct Hs as [Hs Hall].
    specialize (IH c Hs iv Hin).
    inversion Hall; subst. lia.
Qed.

Lemma spec_tail_disjoint e rest i j a b :
  StronglySorted (fun a b => created_dt a <= created_dt b) (e :: rest) ->
  (i < j)%nat ->
  nth_error (spec_tail e rest) i = Some a ->
  nth_error (spec_tail e rest) j = Some b ->
  iv_end a < iv_start b.
Proof.
  revert e i j. induction rest as [|c r IH]; intros e i j Hs Hij Ha Hb.
  - destruct j; [lia|]. cbn in Hb. destruct j; discriminate.
  - apply StronglySorted_inv in Hs. destruct Hs as [Hs Hall].
    cbn [spec_tail] in *. destruct j as [|j]; [lia|].
    cbn [nth_error] in Hb. destruct i as [|i].
    + cbn in Ha. inversion Ha; subst a. cbn [spec_last spec_pair spec_first iv_start iv_end].
      apply nth_error_In in Hb.
      pose proof (spec_tail_starts c r Hs b Hb). lia.
    + cbn [nth_error] in Ha. eapply (IH c i j); try eassumption. lia.
Qed.

Lemma spec_tail_cover e rest t :
  created_dt e <= t <= dt_max ->
  exists iv, In iv (spec_tail e rest) /\ iv_start iv <= t <= iv_end iv.
Proof.
  revert e. induction rest as [|c r IH]; intros e Ht.
  - exists (spec_last e). split; [left; reflexivity | cbn [spec_last spec_pair spec_first iv_start iv_end]; lia].
  - cbn [spec_tail]. destruct (Z_lt_le_dec t (created_dt c)) as [Hlt|Hge].
    + exists (spec_pair e c). split; [left; reflexivity | cbn [spec_last spec_pair spec_first iv_start iv_end]; lia].
    + destruct (IH c) as (iv & Hin & Hiv); [lia|].
      exists iv. split; [right; assumption | assumption].
Qed.

Lemma spec_tail_nth e rest i a b :
  nth_error (e :: rest) i = Some a ->
  nth_error (e :: rest) (S i) = Some b ->
  nth_error (spec_tail e rest) i = Some (spec_pair a b).
Proof.
  revert e i. induction rest as [|c r IH]; intros e i Ha Hb.
  - cbn in Hb. destruct i; discriminate.
  - destruct i as [|i].
    + cbn in Ha, Hb. inversion Ha; inversion Hb; subst. reflexivity.
    + cbn [nth_error] in Ha, Hb. cbn [spec_tail nth_error].
      apply IH; assumption.
Qed.

Lemma spec_tail_nth_last e rest :
  nth_error (spec_tail e rest) (List.length rest)
  = Some (spec_last (last (e :: rest) e)).
Proof.
  revert e. induction rest as [|c r IH]; intros e; [reflexivity|].
  cbn [spec_tail List.length nth_error]. rewrite IH.
  change (last (e :: c :: r) e) with (last (c :: r) e).
  rewrite (last_default (c :: r) c e) by discriminate. reflexivity.
Qed.

Lemma spec_timeline_cover e rest :
  chronological (e :: rest) -> contiguous_cover (spec_timeline (e :: rest)).
Proof.
  intros Hs. apply Sorted_StronglySorted in Hs; [|intros x y z; lia].
  unfold spec_timeline. constructor.
  - exists (spec_first e), (spec_tail e rest). split; reflexivity.
  - destruct (spec_tail_end e rest) as (r & iv & Heq & Hend).
    exists (spec_first e :: r), iv. rewrite Heq. auto.
  - intros i a b Ha Hb. destruct i as [|i].
    + cbn in Ha. inversion Ha; subst a. cbn [nth_error] in Hb.
      destruct (spec_tail_head e rest) as (iv & r & Heq & Hst).
      rewrite Heq in Hb. cbn in Hb. inversion Hb; subst b.
      rewrite Hst. reflexivity.
    + cbn [nth_error] in Ha, Hb. eapply spec_tail_adjacent; eassumption.
  - intros i j a b Hij Ha Hb.
    assert (Hlt : iv_end a < iv_start b).
    { destruct j as [|j]; [lia|]. cbn [nth_error] in Hb. destruct i as [|i].
      - cbn in Ha. inversion Ha; subst a. cbn [spec_last spec_pair spec_first iv_start iv_end].
        apply nth_error_In in Hb.
        pose proof (spec_tail_starts e rest Hs b Hb). lia.
      - cbn [nth_error] in Ha.
        eapply (spec_tail_disjoint e rest i j); try eassumption. lia. }
    unfold overlaps. apply andb_false_iff. right. apply Z.leb_gt. exact Hlt.
  - intros t Ht. destruct (Z_lt_le_dec t (created_dt e)) as [Hlt|Hge].
    + exists (spec_first e). split; [left; reflexivity | cbn [spec_last spec_pair spec_first iv_start iv_end]; lia].
    + destruct (spec_tail_cover e rest t) as (iv & Hin & Hiv); [lia|].
      exists iv. split; [right; assumption | assumption].
Qed.

End Timeline.

(** ** The reconstructed timeline *)

Lemma nth_error_last (l : list change) (d x : change) :
  nth_error l (List.length l - 1) = Some x -> l <> [] -> last l d = x.
Proof.
  induction l as [|a [|b l] IH]; intros H Hne; [congruence| |].
  - cbn in H. inversion H. reflexivity.
  - change (last (a :: b :: l) d) with (last (b :: l) d).
    apply IH; [|discriminate].
    cbn [List.length] in *.
    replace (S (S (List.length l)) - 1)%nat with (S (List.length l)) in H by lia.
    replace (S (List.length l) - 1)%nat with (List.length l) by lia.
    exact H.
Qed.

(** C1. For every sorted non-empty sequence of assignee changes, the
    interval sequence that [compute_assignee_window_info] builds is
    contiguous, non-overlapping and covers all time: it starts at
    [datetime.min] UTC, ends at [datetime.max] UTC, and each interval
    ends one microsecond (the resolution of [datetime]) before the next
    one starts; moreover no two intervals overlap and every instant lies
    in one of them.  The sequence is built whenever the first change is
    later than [datetime.min]. *)
Theorem intervals_contiguous_cover (f : issue_fields) (evs : list change) :
  evs <> [] ->
  chronological evs ->
  (forall ivs, intervals f evs = Ok ivs -> contiguous_cover ivs)
  /\ (representable evs ->
      (forall e, hd_error evs = Some e -> dt_min < created_dt e) ->
      exists ivs, intervals f evs = Ok ivs).
Proof.
  intros Hne Hs. destruct evs as [|e rest]; [congruence|]. split.
  - intros ivs H. apply intervals_inv in H. destruct H as [-> _].
    apply spec_timeline_cover. exact Hs.
  - intros Hr He. exists (spec_timeline (e :: rest)).
    apply intervals_ok. apply chronological_later; auto.
Qed.

Lemma intervals_contiguous_cover_witness :
  [alice_to_bob] <> []
  /\ chronological [alice_to_bob]
  /\ contiguous_cover
       [mk_interval dt_min (t_2025_07_02_10h - 1) (Some "u-alice") (Some "Alice");
        mk_interval t_2025_07_02_10h dt_max (Some "u-bob") (Some "Bob")].
Proof.
  assert (Hne : [alice_to_bob] <> []) by discriminate.
  assert (Hs : chronological [alice_to_bob]) by (repeat constructor).
  split; [exact Hne|]. split; [exact Hs|].
  apply (proj1 (intervals_contiguous_cover no_fields [alice_to_bob] Hne Hs)).
  reflexivity.
Defined.

(** C2, amended. For every sorted non-empty sequence of n changes whose
    first timestamp is later than [datetime.min], exactly n+1 intervals
    are built: the first from the beginning of time to one microsecond
    before [events[0]], held by its [from] identity; for each pair of
    neighbours an interval from [events[i]] to one microsecond before
    [events[i+1]], held by the [to] identity of [events[i]]; and a last
    one from [events[n-1]] to the end of time, held by its [to]
    identity. *)
Theorem intervals_of_changes (f : issue_fields) (evs : list change) (e0 en : change) :
  nth_error evs 0 = Some e0 ->
  nth_error evs (List.length evs - 1) = Some en ->
  chronological evs ->
  representable evs ->
  dt_min < created_dt e0 ->
  exists ivs,
    intervals f evs = Ok ivs
    /\ List.length ivs = S (List.length evs)
    /\ nth_error ivs 0
       = Some (mk_interval dt_min (created_dt e0 - 1) (from_id e0) (from_name e0))
    /\ (forall i a b,
          nth_error evs i = Some a -> nth_error evs (S i) = Some b ->
          nth_error ivs (S i)
          = Some (mk_interval (created_dt a) (created_dt b - 1) (to_id a) (to_name a)))
    /\ nth_error ivs (List.length evs)
       = Some (mk_interval (created_dt en) dt_max (to_id en) (to_name en)).
Proof.
  intros H0 Hn Hs Hr Hlate. destruct evs as [|e rest]; [discriminate|].
  cbn in H0. inversion H0; subst e0.
  exists (spec_timeline (e :: rest)). split.
  - apply intervals_ok. apply chronological_later; auto.
  - unfold spec_timeline. repeat split.
    + cbn [List.length]. now rewrite spec_tail_length.
    + intros i a b Ha Hb. cbn [nth_error]. apply spec_tail_nth; assumption.
    + cbn [List.length nth_error]. rewrite spec_tail_nth_last.
      rewrite (nth_error_last (e :: rest) e en Hn) by discriminate. reflexivity.
Qed.

Lemma intervals_of_changes_witness :
  nth_error three_changes 0 = Some alice_to_bob
  /\ nth_error three_changes (List.length three_changes - 1) = Some carol_to_dave
  /\ chronological three_changes
  /\ representable three_changes
  /\ dt_min < created_dt alice_to_bob
  /\ exists ivs,
      intervals no_fields three_changes = Ok ivs
      /\ List.length ivs = 4%nat
      /\ nth_error ivs 0
         = Some (mk_interval dt_min (t_2025_07_02_10h - 1)
                             (Some "u-alice") (Some "Alice"))
      /\ nth_error ivs 1
         = Some (mk_interval t_2025_07_02_10h (t_2025_07_02_10h - 1)
                             (Some "u-bob") (Some "Bob"))
      /\ nth_error ivs 2
         = Some (mk_interval t_2025_07_02_10h (t_2025_07_02_11h - 1)
                             (Some "u-carol") (Some "Carol"))
      /\ nth_error ivs 3
         = Some (mk_interval t_2025_07_02_11h dt_max (Some "u-dave") (Some "Dave")).
Proof.
  assert (H0 : nth_error three_changes 0 = Some alice_to_bob) by reflexivity.
  assert (Hn : nth_error three_changes (List.length three_changes - 1)
               = Some carol_to_dave) by reflexivity.
  assert (Hs : chronological three_changes)
    by (repeat (constructor; try discriminate)).
  assert (Hr : representable three_changes)
    by (repeat (constructor; try (split; discriminate))).
  assert (Hl : dt_min < created_dt alice_to_bob) by reflexivity.
  repeat (split; [assumption|]).
  destruct (intervals_of_changes no_fields three_changes alice_to_bob carol_to_dave
              H0 Hn Hs Hr Hl) as (ivs & Hi & Hlen & Hfirst & Hpairs & Hlast).
  exists ivs. split; [exact Hi|]. split; [exact Hlen|]. split; [exact Hfirst|].
  split; [exact (Hpairs 0%nat alice_to_bob bob_to_carol eq_refl eq_refl)|].
  split; [exact (Hpairs 1%nat bob_to_carol carol_to_dave eq_refl eq_refl)|].
  exact Hlast.
Defined.

Lemma intervals_at_min_overflow :
  parse_api_dt "0001-01-01T00:00:00.000+0000" = Ok (created_dt change_at_min)
  /\ chronological [change_at_min]
  /\ representable [change_at_min]
  /\ intervals no_fields [change_at_min] = Raise OverflowError
  /\ compute_assignee_window_info no_fields [change_at_min]
       d_2025_07_01 d_2025_07_03_end = Raise OverflowError
  /\ ~ (exists ivs, intervals no_fields [change_at_min] = Ok ivs
                    /\ List.length ivs = 2%nat).
Proof.
  split; [reflexivity|].
  split; [repeat constructor|].
  split; [repeat constructor; cbn; unfold dt_min, dt_max, us_per_day, us_per_second; lia|].
  split; [reflexivity|]. split; [reflexivity|].
  intros (ivs & H & _). discriminate H.
Qed.

(** C3. For an empty sequence of changes exactly one interval is built,
    from [datetime.min] UTC to [datetime.max] UTC, held by the current
    assignee of the issue: the [accountId] and [displayName] of its
    [assignee] field, both [None] when the issue is unassigned. *)
Theorem intervals_without_changes (f : issue_fields) :
  intervals f []
  = Ok [mk_interval dt_min dt_max
          (match f_assignee f with Some u => accountId u | None => None end)
          (match f_assignee f with Some u => displayName u | None => None end)].
Proof.
  unfold intervals, current_assignee. destruct (f_assignee f); reflexivity.
Qed.

(** ** Window intersection *)

Section Holders.

Context {A : Type} (le : A -> A -> bool).

Lemma insert_by_In (x y : A) (l : list A) :
  In x (insert_by le y l) <-> x = y \/ In x l.
Proof.
  induction l as [|z l IH]; cbn [insert_by].
  - cbn. intuition.
  - destruct (le y z); cbn [In]; [intuition|]. rewrite IH. intuition.
Qed.

Lemma sort_by_In (x : A) (l : list A) : In x (sort_by le l) <-> In x l.
Proof.
  induction l as [|y l IH]; [reflexivity|].
  unfold sort_by in *. cbn [fold_right]. rewrite insert_by_In, IH.
  cbn [In]. intuition.
Qed.

End Holders.

Lemma opt_string_eqb_eq (a b : option string) :
  opt_string_eqb a b = true <-> a = b.
Proof.
  destruct a as [x|], b as [y|]; cbn; try (split; congruence).
  rewrite String.eqb_eq. split; congruence.
Qed.

Lemma key_seen_In k seen : key_seen k seen = true <-> In k seen.
Proof.
  unfold key_seen. rewrite existsb_exists. split.
  - intros (k' & Hin & Heq). apply andb_true_iff in Heq.
    destruct Heq as [H1 H2]. apply opt_string_eqb_eq in H1, H2.
    destruct k, k'; cbn in *; subst; assumption.
  - intros Hin. exists k. split; [assumption|].
    apply andb_true_iff. split; apply opt_string_eqb_eq; reflexivity.
Qed.

Lemma unique_from_In seen hs h : In h (unique_from seen hs) -> In h hs.
Proof.
  revert seen. induction hs as [|x r IH]; intros seen; cbn [unique_from]; [tauto|].
  destruct (key_seen (h_id x, h_name x) seen).
  - intros H. right. eapply IH; eassumption.
  - intros [->|H]; [left; reflexivity | right; eapply IH; eassumption].
Qed.

Lemma unique_from_keys seen hs h :
  In h hs ->
  In (h_id h, h_name h) seen
  \/ exists h', In h' (unique_from seen hs) /\ h_id h' = h_id h /\ h_name h' = h_name h.
Proof.
  revert seen. induction hs as [|x r IH]; intros seen Hin; [destruct Hin|].
  cbn [unique_from]. destruct Hin as [->|Hin].
  - destruct (key_seen (h_id h, h_name h) seen) eqn:E.
    + left. apply key_seen_In. exact E.
    + right. exists h. split; [left; reflexivity | split; reflexivity].
  - destruct (key_seen (h_id x, h_name x) seen) eqn:E.
    + destruct (IH seen Hin) as [H|(h' & H1 & H2)]; [left; exact H|].
      right. exists h'. split; assumption.
    + destruct (IH ((h_id x, h_name x) :: seen) Hin) as [[H|H]|(h' & H1 & H2)].
      * right. exists x. inversion H. split; [left; reflexivity | split; reflexivity].
      * left. exact H.
      * right. exists h'. split; [right; assumption | assumption].
Qed.

Lemma holders_In ivs ws we h :
  In h (holders ivs ws we) <->
  exists iv, In iv ivs
             /\ overlaps (iv_start iv) (iv_end iv) ws we = true
             /\ h = mk_holder (iv_id iv) (iv_name iv)
                              (Z.max (iv_start iv) ws) (Z.min (iv_end iv) we).
Proof.
  unfold holders. rewrite in_map_iff. split.
  - intros (iv & <- & Hin). apply filter_In in Hin. destruct Hin as [Hin Hov].
    exists iv. repeat split; assumption.
  - intros (iv & Hin & Hov & ->). exists iv. split; [reflexivity|].
    apply filter_In. split; assumption.
Qed.

Lemma overlaps_iff a_start a_end b_start b_end :
  overlaps a_start a_end b_start b_end = true <-> a_start <= b_end /\ b_start <= a_end.
Proof. unfold overlaps. now rewrite andb_true_iff, !Z.leb_le. Qed.

(** C7. For every interval sequence and window, the loop over the
    intervals emits a holder for an interval if and only if the interval
    overlaps the window, that is, starts no later than the window ends
    and ends no earlier than the window starts; for an interval and a
    window that are not inverted this is to share an instant.  The
    holder emitted carries [overlap_start = max(start, window_start)]
    and [overlap_end = min(end, window_end)].  The list returned after
    sorting and de-duplication holds only emitted holders, and holds the
    identity of every interval that overlaps the window. *)
Theorem holders_sound_complete (ivs : list interval) (window_start window_end : datetime) :
  (forall h,
      In h (holders ivs window_start window_end) <->
      exists iv, In iv ivs
                 /\ iv_start iv <= window_end /\ window_start <= iv_end iv
                 /\ h = mk_holder (iv_id iv) (iv_name iv)
                                  (Z.max (iv_start iv) window_start)
                                  (Z.min (iv_end iv) window_end))
  /\ (forall a_start a_end b_start b_end,
         (overlaps a_start a_end b_start b_end = true <->
          a_start <= b_end /\ b_start <= a_end)
         /\ (a_start <= a_end -> b_start <= b_end ->
             (overlaps a_start a_end b_start b_end = true <->
              exists t, a_start <= t <= a_end /\ b_start <= t <= b_end)))
  /\ (forall h,
         In h (unique (holders_sorted (holders ivs window_start window_end))) ->
         exists iv, In iv ivs
                    /\ iv_start iv <= window_end /\ window_start <= iv_end iv
                    /\ h = mk_holder (iv_id iv) (iv_name iv)
                                     (Z.max (iv_start iv) window_start)
                                     (Z.min (iv_end iv) window_end))
  /\ (forall iv,
         In iv ivs ->
         iv_start iv <= window_end -> window_start <= iv_end iv ->
         exists h,
           In h (unique (holders_sorted (holders ivs window_start window_end)))
           /\ h_id h = iv_id iv /\ h_name h = iv_name iv).
Proof.
  assert (E : forall h,
             In h (holders ivs window_start window_end) <->
             exists iv, In iv ivs
                        /\ iv_start iv <= window_end /\ window_start <= iv_end iv
                        /\ h = mk_holder (iv_id iv) (iv_name iv)
                                         (Z.max (iv_start iv) window_start)
                                         (Z.min (iv_end iv) window_end)).
  { intros h. rewrite holders_In. split.
    - intros (iv & Hin & Hov & ->). apply overlaps_iff in Hov.
      exists iv. tauto.
    - intros (iv & Hin & H1 & H2 & ->). exists iv.
      split; [exact Hin|]. split; [apply overlaps_iff; tauto | reflexivity]. }
  split; [exact E|]. split; [|split].
  - intros a_start a_end b_start b_end. split; [apply overlaps_iff|].
    intros Ha Hb. rewrite overlaps_iff. split.
    + intros [H1 H2]. exists (Z.max a_start b_start). lia.
    + intros (t & H1 & H2). lia.
  - intros h Hin. apply unique_from_In in Hin.
    unfold holders_sorted in Hin. rewrite sort_by_In in Hin. apply E. exact Hin.
  - intros iv Hin H1 H2.
    set (h0 := mk_holder (iv_id iv) (iv_name iv)
                         (Z.max (iv_start iv) window_start)
                         (Z.min (iv_end iv) window_end)).
    assert (H0 : In h0 (holders_sorted (holders ivs window_start window_end))).
    { unfold holders_sorted. rewrite sort_by_In. apply E. exists iv. auto. }
    destruct (unique_from_keys [] _ h0 H0) as [[]|(h' & H3 & H4 & H5)].
    exists h'. auto.
Qed.

(** On the third of July only Dave holds the issue of the three
    changes: his interval is emitted, the one of Alice is not. *)
Lemma holders_sound_complete_witness :
  In (mk_holder (Some "u-dave") (Some "Dave") d_2025_07_03 d_2025_07_03_end)
     (holders (spec_timeline three_changes) d_2025_07_03 d_2025_07_03_end)
  /\ ~ In (mk_holder (Some "u-alice") (Some "Alice")
                     d_2025_07_03 (t_2025_07_02_10h - 1))
          (holders (spec_timeline three_changes) d_2025_07_03 d_2025_07_03_end)
  /\ In (mk_holder (Some "u-bob") (Some "Bob")
                   t_2025_07_02_10h (t_2025_07_02_10h - 1))
        (holders (spec_timeline three_changes) d_2025_07_01 d_2025_07_03_end).
Proof.
  pose proof (proj1 (holders_sound_complete (spec_timeline three_changes)
                       d_2025_07_03 d_2025_07_03_end)) as E3.
  pose proof (proj1 (holders_sound_complete (spec_timeline three_changes)
                       d_2025_07_01 d_2025_07_03_end)) as E1.
  split; [|split].
  - apply E3. exists (spec_last carol_to_dave).
    split; [right; right; right; left; reflexivity|].
    split; [discriminate|]. split; [discriminate | reflexivity].
  - intros H. apply E3 in H. destruct H as (iv & Hin & H1 & H2 & Heq).
    cbn in Hin. destruct Hin as [<-|[<-|[<-|[<-|[]]]]]; try discriminate Heq.
    apply H2. reflexivity.
  - apply E1. exists (spec_pair alice_to_bob bob_to_carol).
    split; [right; left; reflexivity|].
    split; [discriminate|]. split; [discriminate | reflexivity].
Defined.

(** ** The scenario of the specification *)

(** C6, amended. With the window 2025-07-01 to 2025-07-03 and the single
    change at 2025-07-02T10:00Z from Alice to Bob, the timeline is the
    interval from the beginning of time to 2025-07-02T09:59:59.999999Z
    held by Alice, then the interval from 2025-07-02T10:00Z to the end
    of time held by Bob; the holders in the window are Alice then Bob,
    the first being Alice and the last Bob. *)
Theorem scenario_alice_bob (f : issue_fields) :
  parse_date_ymd_utc "2025-07-01" false = Ok d_2025_07_01
  /\ parse_date_ymd_utc "2025-07-03" true = Ok d_2025_07_03_end
  /\ mk_datetime 2025 7 2 10 0 0 0 = Ok t_2025_07_02_10h
  /\ mk_datetime 2025 7 2 9 59 59 999999 = Ok (t_2025_07_02_10h - 1)
  /\ intervals f [alice_to_bob]
     = Ok [mk_interval dt_min (t_2025_07_02_10h - 1) (Some "u-alice") (Some "Alice");
           mk_interval t_2025_07_02_10h dt_max (Some "u-bob") (Some "Bob")]
  /\ compute_assignee_window_info f [alice_to_bob] d_2025_07_01 d_2025_07_03_end
     = Ok (mk_window_info "Alice, Bob" "u-alice, u-bob" (Some "Alice") (Some "Bob")
             [mk_holder (Some "u-alice") (Some "Alice")
                        d_2025_07_01 (t_2025_07_02_10h - 1);
              mk_holder (Some "u-bob") (Some "Bob")
                        t_2025_07_02_10h d_2025_07_03_end]).
Proof. repeat split; vm_compute; reflexivity. Qed.

(** The end of the first interval is not 09:59:59.999: the code steps
    back by one microsecond, not one millisecond. *)
Lemma scenario_first_interval_end :
  exists iv1 iv2,
    intervals no_fields [alice_to_bob] = Ok [iv1; iv2]
    /\ Ok (iv_end iv1) = mk_datetime 2025 7 2 9 59 59 999999
    /\ Ok (iv_end iv1) <> mk_datetime 2025 7 2 9 59 59 999000.
Proof.
  eexists. eexists. split; [reflexivity|]. split; [reflexivity|].
  vm_compute. discriminate.
Qed.

(** ** User-filter matching *)

Lemma mem_In x xs : PyStr.mem x xs = true <-> In x xs.
Proof.
  unfold PyStr.mem. rewrite existsb_exists. split.
  - intros (y & Hin & Heq). apply String.eqb_eq in Heq. subst. assumption.
  - intros Hin. exists x. split; [assumption | apply String.eqb_refl].
Qed.

Lemma truthy_nonempty s : PyStr.truthy s = true <-> s <> EmptyString.
Proof. destruct s; cbn; split; congruence. Qed.

Lemma truthy_lower s : PyStr.truthy (PyStr.lower s) = PyStr.truthy s.
Proof. destruct s; reflexivity. Qed.

Lemma users_norm_In x users :
  In x (users_norm users) <->
  exists u, In u users /\ x = PyStr.lower (PyStr.strip u).
Proof.
  unfold users_norm. rewrite in_map_iff. split.
  - intros (u & <- & Hin). eauto.
  - intros (u & Hin & ->). eauto.
Qed.

Lemma matched_iff users accountid h x :
  In x (matched (users_norm users) accountid h) <->
  exists s u,
    selected accountid h = Some s /\ s <> EmptyString /\ In u users
    /\ PyStr.lower s = PyStr.lower (PyStr.strip u)
    /\ x = shown accountid h s.
Proof.
  unfold matched, selected, shown. destruct accountid.
  - destruct (h_id h) as [i|].
    + destruct (PyStr.truthy i && PyStr.mem (PyStr.lower i) (users_norm users)) eqn:E.
      * apply andb_true_iff in E. destruct E as [Et Em].
        apply truthy_nonempty in Et. apply mem_In, users_norm_In in Em.
        destruct Em as (u & Hu & Heq). cbn [In]. split.
        -- intros [<-|[]]. exists i, u. auto.
        -- intros (s & u' & Hs & _ & _ & _ & ->). inversion Hs; subst. auto.
      * cbn [In]. split; [tauto|].
        intros (s & u & Hs & Hne & Hu & Heq & _). inversion Hs; subst s.
        apply andb_false_iff in E. destruct E as [E|E].
        -- apply truthy_nonempty in Hne. congruence.
        -- assert (PyStr.mem (PyStr.lower i) (users_norm users) = true);
             [|congruence].
           apply mem_In, users_norm_In. eauto.
    + cbn [In]. split; [tauto|]. intros (s & u & Hs & _). discriminate.
  - cbv zeta. rewrite truthy_lower. unfold name_or_empty.
    destruct (h_name h) as [n|].
    + destruct (PyStr.truthy n && PyStr.mem (PyStr.lower n) (users_norm users)) eqn:E.
      * apply andb_true_iff in E. destruct E as [Et Em].
        apply truthy_nonempty in Et. apply mem_In, users_norm_In in Em.
        destruct Em as (u & Hu & Heq). cbn [In]. split.
        -- intros [<-|[]]. exists n, u. auto.
        -- intros (s & u' & Hs & _ & _ & _ & ->). inversion Hs; subst. auto.
      * cbn [In]. split; [tauto|].
        intros (s & u & Hs & Hne & Hu & Heq & _). inversion Hs; subst s.
        apply andb_false_iff in E. destruct E as [E|E].
        -- apply truthy_nonempty in Hne. congruence.
        -- assert (PyStr.mem (PyStr.lower n) (users_norm users) = true);
             [|congruence].
           apply mem_In, users_norm_In. eauto.
    + cbn. split; [tauto|]. intros (s & u & Hs & _). discriminate.
Qed.

Lemma out_unique_from_In seen out x :
  In x (out_unique_from seen out) <-> In x out /\ ~ In x seen.
Proof.
  revert seen. induction out as [|y r IH]; intros seen; cbn [out_unique_from].
  - cbn. tauto.
  - destruct (PyStr.mem y seen) eqn:E.
    + apply mem_In in E. rewrite IH. cbn [In]. split.
      * intros [H1 H2]. auto.
      * intros [[->|H1] H2]; [contradiction | auto].
    + assert (Hy : ~ In y seen).
      { intros H. apply mem_In in H. congruence. }
      cbn [In]. rewrite IH. cbn [In]. split.
      * intros [->|[H1 H2]]; [auto|]. split; [auto|]. intros H. apply H2. auto.
      * intros [[->|H1] H2]; [auto|].
        destruct (String.eqb_spec y x) as [->|Hne]; [auto|].
        right. split; [assumption|]. intros [H|H]; [congruence | contradiction].
Qed.

Lemma out_unique_In hs users accountid x :
  In x (out_unique hs users accountid) <->
  exists h, In h hs /\ In x (matched (users_norm users) accountid h).
Proof.
  unfold out_unique. rewrite out_unique_from_In, in_flat_map. cbn [In]. tauto.
Qed.

(** C8, amended. A holder matches exactly when its selected identity
    field (the id in accountid mode, the display name otherwise) is
    present and not empty and, once lowercased, equals some filter
    entry once trimmed and lowercased: only the filter entries are
    trimmed.  The output lists, for the holders that match, the display
    name (or the id, in accountid mode, when there is no name). *)
Theorem matcher_rule (hs : list holder) (users : list string) (accountid : bool) :
  (forall h,
      matched (users_norm users) accountid h <> [] <->
      exists s u,
        selected accountid h = Some s /\ s <> EmptyString /\ In u users
        /\ PyStr.lower s = PyStr.lower (PyStr.strip u))
  /\ (forall x,
         In x (out_unique hs users accountid) <->
         exists h s u,
           In h hs /\ selected accountid h = Some s /\ s <> EmptyString
           /\ In u users /\ PyStr.lower s = PyStr.lower (PyStr.strip u)
           /\ x = shown accountid h s)
  /\ match_holders_to_user_filter hs (Some users) accountid
     = match users with
       | [] => EmptyString
       | _ => PyStr.join ", " (out_unique hs users accountid)
       end.
Proof.
  split; [|split].
  - intros h. split.
    + intros Hne. destruct (matched (users_norm users) accountid h) as [|x l] eqn:E;
        [congruence|].
      assert (Hx : In x (matched (users_norm users) accountid h))
        by (rewrite E; left; reflexivity).
      apply matched_iff in Hx. destruct Hx as (s & u & H1 & H2 & H3 & H4 & _).
      exists s, u. auto.
    + intros (s & u & H1 & H2 & H3 & H4).
      assert (Hx : In (shown accountid h s) (matched (users_norm users) accountid h)).
      { apply matched_iff. exists s, u. auto. }
      intros E. rewrite E in Hx. destruct Hx.
  - intros x. rewrite out_unique_In. split.
    + intros (h & Hin & Hm). apply matched_iff in Hm.
      destruct Hm as (s & u & H1 & H2 & H3 & H4 & H5).
      exists h, s, u. repeat split; assumption.
    + intros (h & s & u & Hin & H1 & H2 & H3 & H4 & H5). exists h.
      split; [assumption|]. apply matched_iff. exists s, u. auto.
  - destruct users; reflexivity.
Qed.

(** A display name with a leading space does not match the entry it
    equals once trimmed and lowercased. *)
Lemma untrimmed_name_does_not_match :
  PyStr.lower (PyStr.strip " Alice") = PyStr.lower (PyStr.strip "alice")
  /\ match_holders_to_user_filter
       [mk_holder (Some "u1") (Some " Alice") dt_min dt_max] (Some ["alice"]) false
     = EmptyString
  /\ match_holders_to_user_filter
       [mk_holder (Some "u1") (Some "Alice") dt_min dt_max] (Some ["alice"]) false
     = "Alice".
Proof. repeat split. Qed.

(** C10. When matching by display name, a holder whose name is [None]
    or empty contributes nothing to the output, whatever its id and
    whatever the filter: the output is the one of the holders that have
    a name, and each entry of it is the name of a holder. *)
Theorem display_mode_needs_name (hs : list holder) (users : option (list string)) :
  (forall h norm,
      PyStr.truthy_opt (h_name h) = false -> matched norm false h = [])
  /\ match_holders_to_user_filter hs users false
     = match_holders_to_user_filter
         (filter (fun h => PyStr.truthy_opt (h_name h)) hs) users false
  /\ (forall us x,
         In x (out_unique hs us false) ->
         x <> EmptyString /\ exists h, In h hs /\ h_name h = Some x).
Proof.
  assert (H1 : forall h norm,
             PyStr.truthy_opt (h_name h) = false -> matched norm false h = []).
  { intros h norm Hn. unfold matched, name_or_empty. cbv zeta.
    rewrite truthy_lower. destruct (h_name h) as [n|]; [|reflexivity].
    cbn in Hn. rewrite Hn. reflexivity. }
  split; [exact H1|]. split.
  - destruct users as [[|u us]|]; try reflexivity.
    unfold match_holders_to_user_filter, out_unique. do 2 f_equal.
    induction hs as [|h r IH]; [reflexivity|].
    cbn [flat_map filter]. destruct (PyStr.truthy_opt (h_name h)) eqn:E.
    + cbn [flat_map]. f_equal. exact IH.
    + rewrite (H1 h _ E). exact IH.
  - intros us x Hx. apply out_unique_In in Hx. destruct Hx as (h & Hin & Hm).
    apply matched_iff in Hm. destruct Hm as (s & u & Hs & Hne & _ & _ & ->).
    cbn in Hs |- *. split; [assumption|]. exists h. auto.
Qed.

(** ** The run *)

Section Run.

Variable w : world.
Variable users : option (list string).
Variable accountid : bool.
Variables window_start window_end : datetime.

Lemma scan_histories_app hs1 hs2 changes :
  scan_histories (hs1 ++ hs2) changes
  = (c <- scan_histories hs1 changes ;; scan_histories hs2 c).
Proof.
  revert changes. induction hs1 as [|h r IH]; intros changes; [reflexivity|].
  cbn [app scan_histories]. destruct (h_created h) as [created|]; [|apply IH].
  destruct (PyStr.truthy created); [|apply IH].
  destruct (parse_api_dt created); cbn [bind]; [apply IH | reflexivity | reflexivity].
Qed.

Lemma scan_histories_malformed h rest changes created e :
  h_created h = Some created -> created <> EmptyString ->
  parse_api_dt created = Raise e ->
  scan_histories (h :: rest) changes = Raise e.
Proof.
  intros Hc Hne Hp. cbn [scan_histories]. rewrite Hc.
  apply truthy_nonempty in Hne. rewrite Hne, Hp. reflexivity.
Qed.

Lemma scan_histories_skip h rest changes :
  PyStr.truthy_opt (h_created h) = false ->
  scan_histories (h :: rest) changes = scan_histories rest changes.
Proof.
  intros Hc. cbn [scan_histories]. destruct (h_created h) as [created|];
    [|reflexivity].
  cbn in Hc. rewrite Hc. reflexivity.
Qed.

Lemma changelog_loop_raises get issue_key fuel start_at changes e :
  status_code (get start_at) = 200 ->
  scan_histories (page_histories (json (get start_at))) changes = Raise e ->
  changelog_loop get issue_key (S fuel) start_at changes = Raise e.
Proof.
  intros Hs Hscan. cbn [changelog_loop]. rewrite Hs, Hscan. reflexivity.
Qed.

Lemma changelog_loop_refused get issue_key fuel start_at changes :
  status_code (get start_at) <> 200 ->
  changelog_loop get issue_key (S fuel) start_at changes
  = Ok (changes, [changelog_error (get start_at) issue_key]).
Proof.
  intros Hs. cbn [changelog_loop].
  destruct (Z.eqb_spec (status_code (get start_at)) 200); [contradiction|].
  reflexivity.
Qed.

Lemma process_issues_cons fuel it rest rows err :
  process_issues w users accountid window_start window_end fuel (it :: rest) rows err
  = ('(r, e) <- process_issue w users accountid window_start window_end fuel it ;;
     process_issues w users accountid window_start window_end fuel rest
                    (rows ++ [r])%list (err ++ e)%list).
Proof. reflexivity. Qed.

Lemma search_loop_raises jql fc fuel tok rows err e :
  status_code (search_post w jql tok) = 200 ->
  process_issues w users accountid window_start window_end fc
                 (s_issues (json (search_post w jql tok))) rows err = Raise e ->
  search_loop w jql users accountid window_start window_end fc (S fuel) tok rows err
  = Raise e.
Proof.
  intros Hs Hp. cbn [search_loop]. rewrite Hs, Hp. reflexivity.
Qed.

End Run.

(** What [get_assignee_changes] returns is in ascending order of time
    and made of values of [datetime]: the timelines are built from lists
    that are chronological and representable. *)
Lemma parse_api_dt_range s t : parse_api_dt s = Ok t -> dt_min <= t <= dt_max.
Proof.
  unfold parse_api_dt. destruct (Strptime.strptime_api s) as [[local off]| |];
    cbn [bind]; try discriminate.
  unfold in_range.
  destruct (Z.leb_spec dt_min (local - off)), (Z.leb_spec (local - off) dt_max);
    cbn [andb]; intros E; inversion E; subst; lia.
Qed.

Lemma scan_histories_range hs changes changes' :
  representable changes -> scan_histories hs changes = Ok changes' ->
  representable changes'.
Proof.
  revert changes. induction hs as [|h r IH]; intros changes Hc H.
  - inversion H; subst. exact Hc.
  - cbn [scan_histories] in H. destruct (h_created h) as [created|]; [|eauto].
    destruct (PyStr.truthy created); [|eauto].
    destruct (parse_api_dt created) as [t| |] eqn:E; try discriminate.
    cbn [bind] in H. eapply IH; [|exact H].
    apply parse_api_dt_range in E. unfold representable in *.
    apply Forall_app. split; [exact Hc|].
    unfold assignee_entries. apply Forall_forall. intros c Hin.
    apply in_map_iff in Hin. destruct Hin as (it & <- & _). exact E.
Qed.

Lemma changelog_loop_range get issue_key fuel start_at changes changes' err :
  representable changes ->
  changelog_loop get issue_key fuel start_at changes = Ok (changes', err) ->
  representable changes'.
Proof.
  revert start_at changes. induction fuel as [|fuel IH]; intros start_at changes Hc H;
    [discriminate|].
  cbn [changelog_loop] in H.
  destruct (negb (status_code (get start_at) =? 200)).
  - inversion H; subst. exact Hc.
  - destruct (scan_histories (page_histories (json (get start_at))) changes)
      as [c1| |] eqn:E; try discriminate.
    cbn [bind] in H. pose proof (scan_histories_range _ _ _ Hc E) as Hc1.
    destruct (c_total (json (get start_at))) as [total|].
    + destruct (start_at + max_results >=? total).
      * inversion H; subst. exact Hc1.
      * eapply IH; eassumption.
    + destruct (negb match c_isLast (json (get start_at)) with
                     | Some b => b
                     | None => true
                     end).
      * eapply IH; eassumption.
      * inversion H; subst. exact Hc1.
Qed.

Lemma insert_change_hd (x y : change) (l : list change) :
  created_dt y <= created_dt x ->
  HdRel (fun a b => created_dt a <= created_dt b) y l ->
  HdRel (fun a b => created_dt a <= created_dt b) y (insert_by change_le x l).
Proof.
  intros Hyx Hl. destruct l as [|z l]; cbn [insert_by].
  - constructor. exact Hyx.
  - destruct (change_le x z); constructor; [exact Hyx|].
    inversion Hl; subst. assumption.
Qed.

Lemma insert_change_sorted (x : change) (l : list change) :
  chronological l -> chronological (insert_by change_le x l).
Proof.
  unfold chronological. induction l as [|y l IH]; intros Hs; cbn [insert_by].
  - repeat constructor.
  - unfold change_le at 1. destruct (Z.leb_spec (created_dt x) (created_dt y)).
    + constructor; [exact Hs | constructor; assumption].
    + inversion Hs; subst. constructor; [apply IH; assumption|].
      apply insert_change_hd; [lia | assumption].
Qed.

Lemma sort_changes_sorted (l : list change) : chronological (sort_by change_le l).
Proof.
  induction l as [|x l IH]; [constructor|].
  unfold sort_by in *. cbn [fold_right]. apply insert_change_sorted. exact IH.
Qed.

Lemma get_assignee_changes_sorted get issue_key fuel changes err :
  get_assignee_changes get issue_key fuel = Ok (changes, err) ->
  chronological changes /\ representable changes.
Proof.
  unfold get_assignee_changes.
  destruct (changelog_loop get issue_key fuel 0 []) as [[cs e]| |] eqn:E;
    cbn [bind]; try discriminate.
  intros H. inversion H; subst. split; [apply sort_changes_sorted|].
  apply changelog_loop_range in E; [|constructor].
  unfold representable in *. rewrite Forall_forall in *. intros c Hc.
  apply E. apply (sort_by_In change_le). exact Hc.
Qed.

(** The timeline of the changes fetched for an issue keeps the
    invariant. *)
Lemma fetched_timeline_cover get issue_key fuel f changes err ivs :
  get_assignee_changes get issue_key fuel = Ok (changes, err) ->
  changes <> [] ->
  intervals f changes = Ok ivs ->
  contiguous_cover ivs.
Proof.
  intros Hg Hne Hi. apply get_assignee_changes_sorted in Hg. destruct Hg as [Hs _].
  destruct changes as [|e rest]; [congruence|].
  apply intervals_inv in Hi. destruct Hi as [-> _].
  apply spec_timeline_cover. exact Hs.
Qed.

(** More requests never change the answer of a loop that has ended. *)
Lemma changelog_loop_more_fuel get issue_key fuel start_at changes r :
  changelog_loop get issue_key fuel start_at changes = Ok r ->
  changelog_loop get issue_key (S fuel) start_at changes = Ok r.
Proof.
  revert start_at changes. induction fuel as [|fuel IH]; intros start_at changes H;
    [discriminate|].
  remember (S fuel) as n. cbn [changelog_loop]. subst n.
  cbn [changelog_loop] in H.
  destruct (negb (status_code (get start_at) =? 200)); [exact H|].
  destruct (scan_histories (page_histories (json (get start_at))) changes)
    as [c1| |]; cbn [bind] in *; try discriminate.
  destruct (c_total (json (get start_at))) as [total|].
  - destruct (start_at + max_results >=? total); [exact H | apply IH; exact H].
  - destruct (negb match c_isLast (json (get start_at)) with
                   | Some b => b
                   | None => true
                   end); [apply IH; exact H | exact H].
Qed.

Lemma main_ready w a fuel window_start window_end :
  ready w a window_start window_end ->
  main w a fuel
  = search_loop w (jql_of a) (users_of a) (use_accountid a) window_start window_end
                fuel fuel None [] [].
Proof.
  intros (Hp & Hi & (s & Hs) & Hf & Ht). unfold main.
  destruct (csv_list (a_projects a)); [congruence|].
  destruct (csv_list (in_progress_statuses a)); [congruence|].
  cbv zeta. rewrite Hs, Hf, Ht. reflexivity.
Qed.

Lemma intervals_total_on_empty f ws we :
  exists win, compute_assignee_window_info f [] ws we = Ok win.
Proof. unfold compute_assignee_window_info, intervals. cbn [bind]. eauto. Qed.

Lemma ready_july w :
  getenv w = env_set -> ready w args_july d_2025_07_01 d_2025_07_03_end.
Proof.
  intros H. unfold ready, jira_session, env. rewrite H.
  repeat split; try discriminate. eexists; reflexivity.
Qed.

Lemma ready_inverted w :
  getenv w = env_set -> ready w args_inverted d_2025_07_03 d_2025_07_01_end.
Proof.
  intros H. unfold ready, jira_session, env. rewrite H.
  repeat split; try discriminate. eexists; reflexivity.
Qed.

(** C4, amended. The order of the two dates is never examined: when
    both parse, also to a window that ends before it starts, [main]
    enters its loop over the issues with that window, and every issue
    whose changelog is fetched and whose timeline is built gets its row,
    computed against that window. *)
Theorem inverted_window_not_rejected (w : world) (a : args) (fuel : nat)
    (window_start window_end : datetime) :
  ready w a window_start window_end ->
  window_end < window_start ->
  main w a fuel
  = search_loop w (jql_of a) (users_of a) (use_accountid a) window_start window_end
                fuel fuel None [] []
  /\ forall it changes err ivs,
      get_assignee_changes (changelog_get w (key it)) (key it) fuel = Ok (changes, err) ->
      intervals (fields it) changes = Ok ivs ->
      exists win,
        win_holders win = unique (holders_sorted (holders ivs window_start window_end))
        /\ process_issue w (users_of a) (use_accountid a) window_start window_end fuel it
           = Ok (make_row it win
                   (match_holders_to_user_filter (win_holders win) (users_of a)
                                                 (use_accountid a)),
                 err).
Proof.
  intros Hr _. split; [apply main_ready; exact Hr|].
  intros it changes err ivs Hc Hi.
  unfold process_issue, compute_assignee_window_info. rewrite Hc. cbn [bind].
  rewrite Hi. cbn [bind]. eexists. split; [|reflexivity]. reflexivity.
Qed.

Lemma inverted_window_not_rejected_witness :
  ready world_empty args_inverted d_2025_07_03 d_2025_07_01_end
  /\ d_2025_07_01_end < d_2025_07_03
  /\ main world_empty args_inverted 1
     = search_loop world_empty (jql_of args_inverted) (users_of args_inverted)
                   (use_accountid args_inverted) d_2025_07_03 d_2025_07_01_end
                   1 1 None [] [].
Proof.
  assert (Hr : ready world_empty args_inverted d_2025_07_03 d_2025_07_01_end)
    by (apply ready_inverted; reflexivity).
  assert (Hlt : d_2025_07_01_end < d_2025_07_03) by reflexivity.
  split; [exact Hr|]. split; [exact Hlt|].
  exact (proj1 (inverted_window_not_rejected world_empty args_inverted 1
                  d_2025_07_03 d_2025_07_01_end Hr Hlt)).
Defined.

(** The window from 2025-07-03 to 2025-07-01 is accepted: the run
    processes the issue and returns its row. *)
Lemma inverted_window_yields_row :
  parse_date_ymd_utc (date_from args_inverted) false = Ok d_2025_07_03
  /\ parse_date_ymd_utc (date_to args_inverted) true = Ok d_2025_07_01_end
  /\ d_2025_07_01_end < d_2025_07_03
  /\ exists r,
      main world_empty args_inverted 1 = Ok ([r], [])
      /\ r_key r = "TBR-1"
      /\ r_assignees_during_window_display r = "Carol".
Proof.
  split; [reflexivity|]. split; [reflexivity|]. split; [reflexivity|].
  eexists. split; [vm_compute; reflexivity|]. split; reflexivity.
Qed.

(** The paging loops, from the states they reach. *)
Lemma changelog_loop_step get issue_key k start_at changes changes' :
  status_code (get start_at) = 200 ->
  scan_histories (page_histories (json (get start_at))) changes = Ok changes' ->
  more_pages (json (get start_at)) start_at = true ->
  changelog_loop get issue_key (S k) start_at changes
  = changelog_loop get issue_key k (start_at + max_results) changes'.
Proof.
  intros Hs Hscan Hm. cbn [changelog_loop]. rewrite Hs, Hscan.
  change (200 =? 200) with true. cbn [negb bind].
  unfold more_pages in Hm. destruct (c_total (json (get start_at))) as [total|].
  - apply negb_true_iff in Hm. rewrite Hm. reflexivity.
  - rewrite Hm. reflexivity.
Qed.

Lemma changelog_loop_reach get issue_key n start_at changes :
  changelog_reaches get n start_at changes ->
  forall k,
    changelog_loop get issue_key (n + k) 0 []
    = changelog_loop get issue_key k start_at changes.
Proof.
  induction 1 as [|n start_at changes changes' Hr IH Hs Hscan Hm]; intros k;
    [reflexivity|].
  replace (S n + k)%nat with (n + S k)%nat by lia. rewrite IH.
  apply changelog_loop_step; assumption.
Qed.

Lemma changelog_reaches_range get n start_at changes :
  changelog_reaches get n start_at changes -> representable changes.
Proof.
  induction 1 as [|n start_at changes changes' Hr IH Hs Hscan Hm]; [constructor|].
  eapply scan_histories_range; eassumption.
Qed.

Lemma process_issues_app w users accountid ws we fuel its1 its2 rows err :
  process_issues w users accountid ws we fuel (its1 ++ its2) rows err
  = ('(rows1, err1) <- process_issues w users accountid ws we fuel its1 rows err ;;
     process_issues w users accountid ws we fuel its2 rows1 err1).
Proof.
  revert rows err. induction its1 as [|it r IH]; intros rows err; [reflexivity|].
  cbn [app]. rewrite !process_issues_cons.
  destruct (process_issue w users accountid ws we fuel it) as [[row e]| |];
    cbn [bind]; [apply IH | reflexivity | reflexivity].
Qed.

Lemma search_loop_step w jql users accountid ws we fc k tok rows err rows' err' t :
  status_code (search_post w jql tok) = 200 ->
  process_issues w users accountid ws we fc
                 (s_issues (json (search_post w jql tok))) rows err = Ok (rows', err') ->
  next_search (json (search_post w jql tok)) = Some t ->
  search_loop w jql users accountid ws we fc (S k) tok rows err
  = search_loop w jql users accountid ws we fc k (Some t) rows' err'.
Proof.
  intros Hs Hp Hn. cbn [search_loop]. rewrite Hs, Hp.
  change (200 =? 200) with true. cbn [negb bind].
  unfold next_search in Hn.
  destruct (match s_isLast (json (search_post w jql tok)) with
            | Some b => b
            | None => false
            end); [discriminate Hn|].
  destruct (s_nextPageToken (json (search_post w jql tok))) as [t'|];
    [|discriminate Hn].
  destruct (PyStr.truthy t'); inversion Hn; subst. reflexivity.
Qed.

Lemma search_loop_reach w jql users accountid ws we fc n tok rows err :
  search_reaches w jql users accountid ws we fc n tok rows err ->
  forall k,
    search_loop w jql users accountid ws we fc (n + k) None [] []
    = search_loop w jql users accountid ws we fc k tok rows err.
Proof.
  induction 1 as [|n tok rows err rows' err' t Hr IH Hs Hp Hn]; intros k;
    [reflexivity|].
  replace (S n + k)%nat with (n + S k)%nat by lia. rewrite IH.
  eapply search_loop_step; eassumption.
Qed.

(** C5, amended. A history record whose timestamp is present and not
    parseable, on any changelog page that the paging loop comes to, of
    any issue that the run comes to, makes [get_assignee_changes] raise
    the exception of the parser, and nothing catches it: the run ends
    with that exception and returns no row, whatever rows it had
    gathered.  Only a record whose timestamp is missing or empty is
    skipped. *)
Theorem malformed_timestamp_aborts (w : world) (a : args) (fuel : nat)
    (window_start window_end : datetime)
    (n : nat) (next_token : option string) (rows : list row) (err : list string)
    (its1 its2 : list issue) (it : issue) (rows1 : list row) (err1 : list string)
    (m : nat) (start_at : Z) (changes : list change)
    (hs1 hs2 : list history) (h : history) (cs : list change)
    (created : string) (e : exn) :
  ready w a window_start window_end ->
  search_reaches w (jql_of a) (users_of a) (use_accountid a) window_start window_end
                 fuel n next_token rows err ->
  (n < fuel)%nat ->
  status_code (search_post w (jql_of a) next_token) = 200 ->
  s_issues (json (search_post w (jql_of a) next_token)) = (its1 ++ it :: its2)%list ->
  process_issues w (users_of a) (use_accountid a) window_start window_end fuel
                 its1 rows err = Ok (rows1, err1) ->
  changelog_reaches (changelog_get w (key it)) m start_at changes ->
  (m < fuel)%nat ->
  status_code (changelog_get w (key it) start_at) = 200 ->
  page_histories (json (changelog_get w (key it) start_at)) = (hs1 ++ h :: hs2)%list ->
  scan_histories hs1 changes = Ok cs ->
  h_created h = Some created ->
  created <> EmptyString ->
  parse_api_dt created = Raise e ->
  get_assignee_changes (changelog_get w (key it)) (key it) fuel = Raise e
  /\ main w a fuel = Raise e
  /\ (forall h' hs changes',
         PyStr.truthy_opt (h_created h') = false ->
         scan_histories (h' :: hs) changes' = scan_histories hs changes').
Proof.
  intros Hr Hsr Hn Hs Hi Hp1 Hcr Hm Hc Hp Hscan Hcreated Hne Hparse.
  assert (Hg : get_assignee_changes (changelog_get w (key it)) (key it) fuel
               = Raise e).
  { unfold get_assignee_changes.
    replace fuel with (m + S (fuel - S m))%nat by lia.
    rewrite (changelog_loop_reach _ _ _ _ _ Hcr).
    rewrite (changelog_loop_raises _ _ _ _ _ e Hc); [reflexivity|].
    rewrite Hp, scan_histories_app, Hscan. cbn [bind].
    eapply scan_histories_malformed; eassumption. }
  split; [exact Hg|]. split.
  - rewrite (main_ready _ _ _ _ _ Hr).
    replace (search_loop w (jql_of a) (users_of a) (use_accountid a)
               window_start window_end fuel fuel None [] [])
      with (search_loop w (jql_of a) (users_of a) (use_accountid a)
              window_start window_end fuel (n + S (fuel - S n)) None [] [])
      by (f_equal; lia).
    rewrite (search_loop_reach _ _ _ _ _ _ _ _ _ _ _ Hsr).
    apply search_loop_raises; [exact Hs|].
    rewrite Hi, process_issues_app, Hp1. cbn [bind].
    rewrite process_issues_cons. unfold process_issue. rewrite Hg. reflexivity.
  - intros. apply scan_histories_skip. assumption.
Qed.

(** The malformed record stands on the second changelog page of the
    second issue, which is on the second search page. *)
Lemma malformed_timestamp_aborts_witness :
  ready world_late_malformed args_july d_2025_07_01 d_2025_07_03_end
  /\ changelog_reaches (changelog_get world_late_malformed "TBR-2") 1 100 [alice_to_bob]
  /\ page_histories (json (changelog_get world_late_malformed "TBR-2" 100))
     = ([] ++ bad_history :: [])%list
  /\ parse_api_dt "yesterday" = Raise ValueError
  /\ get_assignee_changes (changelog_get world_late_malformed "TBR-2") "TBR-2" 2
     = Raise ValueError
  /\ main world_late_malformed args_july 2 = Raise ValueError.
Proof.
  assert (Hr : ready world_late_malformed args_july d_2025_07_01 d_2025_07_03_end)
    by (apply ready_july; reflexivity).
  assert (Hc : changelog_reaches (changelog_get world_late_malformed "TBR-2")
                 1 100 [alice_to_bob]).
  { apply (reaches_next _ 0 0 [] [alice_to_bob]);
      [apply reaches_first | reflexivity | reflexivity | reflexivity]. }
  assert (Hp : parse_api_dt "yesterday" = Raise ValueError) by reflexivity.
  assert (Hne : "yesterday" <> EmptyString) by discriminate.
  assert (Hrow : exists r,
             process_issues world_late_malformed (users_of args_july)
               (use_accountid args_july) d_2025_07_01 d_2025_07_03_end 2
               [issue_tbr1] [] [] = Ok ([r], [])).
  { eexists. vm_compute. reflexivity. }
  destruct Hrow as (r & Hrow).
  assert (Hs : search_reaches world_late_malformed (jql_of args_july)
                 (users_of args_july) (use_accountid args_july)
                 d_2025_07_01 d_2025_07_03_end 2 1 (Some "p2") [r] []).
  { apply (search_next _ _ _ _ _ _ _ 0 None [] [] [r] [] "p2");
      [apply search_first | reflexivity | exact Hrow | reflexivity]. }
  split; [exact Hr|]. split; [exact Hc|]. split; [reflexivity|]. split; [exact Hp|].
  pose proof (malformed_timestamp_aborts world_late_malformed args_july 2
                d_2025_07_01 d_2025_07_03_end
                1 (Some "p2") [r] [] [] [] issue_tbr2 [r] []
                1 100 [alice_to_bob] [] [] bad_history [alice_to_bob]
                "yesterday" ValueError
                Hr Hs ltac:(lia) eq_refl eq_refl eq_refl Hc ltac:(lia)
                eq_refl eq_refl eq_refl eq_refl Hne Hp) as H.
  split; [exact (proj1 H) | exact (proj1 (proj2 H))].
Defined.

(** With the malformed record the run raises; without it the same page
    gives the change from Alice to Bob and the run returns its row. *)
Lemma malformed_timestamp_not_skipped :
  h_created bad_history = Some "yesterday"
  /\ parse_api_dt "yesterday" = Raise ValueError
  /\ get_assignee_changes (changelog_malformed "TBR-1") "TBR-1" 1 = Raise ValueError
  /\ main world_malformed args_july 1 = Raise ValueError
  /\ get_assignee_changes (changelog_wellformed "TBR-1") "TBR-1" 1
     = Ok ([alice_to_bob], [])
  /\ exists r, main world_wellformed args_july 1 = Ok ([r], []).
Proof.
  repeat split; try reflexivity. eexists. vm_compute. reflexivity.
Qed.

(** C9, amended. When a page of the changelog of an issue is refused
    (any status other than 200), whichever page the loop has come to,
    the error is printed and [get_assignee_changes] returns, sorted,
    the changes gathered from the pages before it: none when the first
    page is refused or when those pages held no assignee change.  With
    an empty list the timeline is the single interval of the current
    assignee; with changes it is built from them.  Whenever the
    timeline is built the issue gets its row and the run goes on with
    the next issue; it is built unless the earliest change gathered is
    stamped [datetime.min], in which case the issue ends the run with
    [OverflowError]. *)
Theorem history_fetch_failure (w : world) (users : option (list string))
    (accountid : bool) (window_start window_end : datetime) (fuel : nat)
    (it : issue) (m : nat) (start_at : Z) (changes : list change) :
  changelog_reaches (changelog_get w (key it)) m start_at changes ->
  (m < fuel)%nat ->
  status_code (changelog_get w (key it) start_at) <> 200 ->
  let line := changelog_error (changelog_get w (key it) start_at) (key it) in
  let gathered := sort_by change_le changes in
  get_assignee_changes (changelog_get w (key it)) (key it) fuel
  = Ok (gathered, [line])
  /\ (m = 0%nat -> gathered = [])
  /\ (gathered = [] ->
      intervals (fields it) gathered
      = Ok [mk_interval dt_min dt_max (fst (current_assignee (fields it)))
                        (snd (current_assignee (fields it)))])
  /\ (forall e r, gathered = e :: r ->
                  (dt_min < created_dt e ->
                   intervals (fields it) gathered = Ok (spec_timeline gathered))
                  /\ (created_dt e = dt_min ->
                      process_issue w users accountid window_start window_end fuel it
                      = Raise OverflowError))
  /\ (forall ivs,
         intervals (fields it) gathered = Ok ivs ->
         exists win,
           compute_assignee_window_info (fields it) gathered window_start window_end
           = Ok win
           /\ win_holders win
              = unique (holders_sorted (holders ivs window_start window_end))
           /\ process_issue w users accountid window_start window_end fuel it
              = Ok (make_row it win
                      (match_holders_to_user_filter (win_holders win) users accountid),
                    [line])
           /\ forall rest rows err,
               process_issues w users accountid window_start window_end fuel
                              (it :: rest) rows err
               = process_issues w users accountid window_start window_end fuel rest
                   (rows ++ [make_row it win
                               (match_holders_to_user_filter (win_holders win)
                                                             users accountid)])%list
                   (err ++ [line])%list).
Proof.
  intros Hreach Hm Hs line gathered.
  assert (Hg : get_assignee_changes (changelog_get w (key it)) (key it) fuel
               = Ok (gathered, [line])).
  { unfold get_assignee_changes.
    replace fuel with (m + S (fuel - S m))%nat by lia.
    rewrite (changelog_loop_reach _ _ _ _ _ Hreach).
    rewrite changelog_loop_refused by exact Hs. reflexivity. }
  split; [exact Hg|]. split; [|split; [|split]].
  - intros ->. inversion Hreach; subst. reflexivity.
  - intros ->. reflexivity.
  - intros e r Heq.
    assert (Hc : chronological (e :: r))
      by (rewrite <- Heq; apply sort_changes_sorted).
    assert (Hr : representable (e :: r)).
    { rewrite <- Heq. pose proof (changelog_reaches_range _ _ _ _ Hreach) as R.
      unfold representable in *. rewrite Forall_forall in *. intros c Hin.
      apply R. apply (sort_by_In change_le). exact Hin. }
    split.
    + intros Hlate. rewrite Heq. apply intervals_ok.
      apply chronological_later; assumption.
    + intros Hmin. unfold process_issue. rewrite Hg. cbn [bind].
      unfold compute_assignee_window_info. rewrite Heq.
      rewrite (intervals_overflow _ _ _ Hmin). reflexivity.
  - intros ivs Hi.
    assert (Hw : compute_assignee_window_info (fields it) gathered
                   window_start window_end
                 = Ok (mk_window_info
                         (PyStr.join ", " (truthy_strings (map h_name
                            (unique (holders_sorted
                                       (holders ivs window_start window_end))))))
                         (PyStr.join ", " (truthy_strings (map h_id
                            (unique (holders_sorted
                                       (holders ivs window_start window_end))))))
                         (first_name (unique (holders_sorted
                                       (holders ivs window_start window_end))))
                         (last_name (unique (holders_sorted
                                       (holders ivs window_start window_end))))
                         (unique (holders_sorted
                                    (holders ivs window_start window_end))))).
    { unfold compute_assignee_window_info. rewrite Hi. reflexivity. }
    eexists. split; [exact Hw|]. split; [reflexivity|].
    assert (Hp : forall win,
               compute_assignee_window_info (fields it) gathered
                 window_start window_end = Ok win ->
               process_issue w users accountid window_start window_end fuel it
               = Ok (make_row it win
                       (match_holders_to_user_filter (win_holders win) users accountid),
                     [line])).
    { intros win Hwin. unfold process_issue. rewrite Hg. cbn [bind].
      rewrite Hwin. reflexivity. }
    split; [apply Hp; exact Hw|].
    intros rest rows err. rewrite process_issues_cons, (Hp _ Hw). reflexivity.
Qed.

(** The second page of the changelog is refused: the change of the
    first page is returned, and the issue gets its row. *)
Lemma history_fetch_failure_witness :
  changelog_reaches (changelog_get world_second_page_refused (key issue_tbr1))
                    1 100 [alice_to_bob]
  /\ status_code (changelog_get world_second_page_refused (key issue_tbr1) 100) <> 200
  /\ get_assignee_changes (changelog_get world_second_page_refused (key issue_tbr1))
                          (key issue_tbr1) 2
     = Ok ([alice_to_bob], ["ERROR 500 fetching changelog for TBR-1: boom"])
  /\ exists r,
      process_issue world_second_page_refused None false
                    d_2025_07_01 d_2025_07_03_end 2 issue_tbr1
      = Ok (r, ["ERROR 500 fetching changelog for TBR-1: boom"]).
Proof.
  assert (Hc : changelog_reaches
                 (changelog_get world_second_page_refused (key issue_tbr1))
                 1 100 [alice_to_bob]).
  { apply (reaches_next _ 0 0 [] [alice_to_bob]);
      [apply reaches_first | reflexivity | reflexivity | reflexivity]. }
  assert (Hs : status_code
                 (changelog_get world_second_page_refused (key issue_tbr1) 100)
               <> 200) by discriminate.
  split; [exact Hc|]. split; [exact Hs|].
  pose proof (history_fetch_failure world_second_page_refused None false
                d_2025_07_01 d_2025_07_03_end 2 issue_tbr1 1 100 [alice_to_bob]
                Hc ltac:(lia) Hs) as H.
  cbv zeta in H. destruct H as (Hg & _ & _ & _ & Hrow).
  split; [exact Hg|].
  destruct (Hrow (spec_timeline [alice_to_bob]) eq_refl) as (win & _ & _ & Hp & _).
  eexists. exact Hp.
Defined.

(** A refused second page: the change read from the first page is kept,
    the list of changes is not empty and the timeline is the one of
    that change, not the single interval of the current assignee. *)
Lemma second_page_refused_keeps_changes :
  status_code (changelog_second_page_refused "TBR-1" 100) = 500
  /\ get_assignee_changes (changelog_second_page_refused "TBR-1") "TBR-1" 2
     = Ok ([alice_to_bob], ["ERROR 500 fetching changelog for TBR-1: boom"])
  /\ exists r,
      main world_second_page_refused args_july 2
      = Ok ([r], ["ERROR 500 fetching changelog for TBR-1: boom"])
      /\ r_assignees_during_window_display r = "Alice, Bob"
      /\ r_assignee_display r = "Carol".
Proof.
  split; [reflexivity|]. split; [reflexivity|].
  eexists. split; [vm_compute; reflexivity|]. split; reflexivity.
Qed.

(** * Further properties of the script *)

(** ** Time utilities *)

Lemma days_within_year y m :
  1 <= m <= 12 ->
  0 <= days_before_month y m
  /\ days_before_month y m + days_in_month y m <= (if is_leap y then 366 else 365).
Proof.
  intros Hm.
  assert (Hc : m = 1 \/ m = 2 \/ m = 3 \/ m = 4 \/ m = 5 \/ m = 6 \/ m = 7
               \/ m = 8 \/ m = 9 \/ m = 10 \/ m = 11 \/ m = 12) by lia.
  unfold days_before_month.
  destruct Hc as [->|[->|[->|[->|[->|[->|[->|[->|[->|[->|[->| ->]]]]]]]]]]];
    match goal with
    | |- context [Z.to_nat ?e] =>
        let v := eval vm_compute in (Z.to_nat e) in change (Z.to_nat e) with v
    end;
    cbn [days_before_month_from]; unfold days_in_month;
    generalize (is_leap y); intros [|]; cbn; lia.
Qed.

Lemma strptime_ymd_midnight s d :
  Strptime.strptime_ymd s = Ok d ->
  d mod us_per_day = 0 /\ dt_min <= d /\ d + us_per_day - 1 <= dt_max.
Proof.
  unfold Strptime.strptime_ymd.
  destruct (Strptime.full_match Strptime.fmt_ymd s) as [[[y m] dd]| |];
    cbn [bind]; try discriminate.
  unfold mk_datetime.
  destruct (valid_date y m dd && valid_time 0 0 0 0) eqn:V; [|discriminate].
  intros H. inversion H; subst; clear H.
  apply andb_true_iff in V. destruct V as [V _].
  unfold valid_date in V. repeat (apply andb_true_iff in V; destruct V as [V ?]).
  rewrite !Z.leb_le in *.
  assert (Ho : 1 <= ymd2ord y m dd <= 3652059).
  { unfold ymd2ord, days_before_year.
    destruct (days_within_year y m ltac:(lia)) as [Hb Hy].
    assert (Hd : 0 <= (y - 1) / 4 - (y - 1) / 100 + (y - 1) / 400 <= 2424).
    { pose proof (Z.div_mod (y - 1) 4 ltac:(lia)).
      pose proof (Z.mod_pos_bound (y - 1) 4 ltac:(lia)).
      pose proof (Z.div_mod (y - 1) 100 ltac:(lia)).
      pose proof (Z.mod_pos_bound (y - 1) 100 ltac:(lia)).
      pose proof (Z.div_mod (y - 1) 400 ltac:(lia)).
      pose proof (Z.mod_pos_bound (y - 1) 400 ltac:(lia)).
      lia. }
    assert (Hl : is_leap y = true -> y <= 9998).
    { intros L. destruct (Z.eq_dec y 9999) as [->|]; [discriminate L | lia]. }
    destruct (is_leap y); [specialize (Hl eq_refl)|clear Hl]; cbv zeta; lia. }
  change (time_us 0 0 0 0) with 0. rewrite Z.add_0_r.
  split; [apply Z.mod_mul; discriminate|].
  unfold dt_min, dt_max, us_per_day, us_per_second. lia.
Qed.

(** X1. [overlaps] does not depend on the order of the two intervals,
    whatever they are, and for two intervals that are not inverted it
    holds exactly when some instant lies in both. *)
Theorem overlaps_common_instant (a_start a_end b_start b_end : datetime) :
  overlaps a_start a_end b_start b_end = overlaps b_start b_end a_start a_end
  /\ (a_start <= a_end ->
      b_start <= b_end ->
      (overlaps a_start a_end b_start b_end = true <->
       exists t, a_start <= t <= a_end /\ b_start <= t <= b_end)).
Proof.
  unfold overlaps. split; [apply andb_comm|]. intros Ha Hb.
  rewrite andb_true_iff, !Z.leb_le. split.
  - intros [H1 H2]. exists (Z.max a_start b_start). lia.
  - intros (t & H1 & H2). lia.
Qed.

Lemma overlaps_common_instant_witness :
  overlaps t_2025_07_02_10h (t_2025_07_02_10h - 1) d_2025_07_01 d_2025_07_03_end
  = overlaps d_2025_07_01 d_2025_07_03_end t_2025_07_02_10h (t_2025_07_02_10h - 1)
  /\ d_2025_07_01 <= d_2025_07_03_end
  /\ t_2025_07_02_10h <= dt_max
  /\ overlaps d_2025_07_01 d_2025_07_03_end t_2025_07_02_10h dt_max = true.
Proof.
  assert (H1 : d_2025_07_01 <= d_2025_07_03_end) by discriminate.
  assert (H2 : t_2025_07_02_10h <= dt_max) by discriminate.
  split; [exact (proj1 (overlaps_common_instant _ _ _ _))|].
  split; [exact H1|]. split; [exact H2|].
  apply (proj2 (proj2 (overlaps_common_instant _ _ _ _) H1 H2)).
  exists t_2025_07_02_10h. repeat split; discriminate.
Defined.

Lemma parse_date_end_of_day s d :
  parse_date_ymd_utc s false = Ok d ->
  parse_date_ymd_utc s true = Ok (d + us_per_day - 1000)
  /\ d mod us_per_day = 0 /\ dt_min <= d /\ d + us_per_day - 1 <= dt_max.
Proof.
  unfold parse_date_ymd_utc.
  destruct (Strptime.strptime_ymd s) as [d'| |] eqn:E; cbn [bind]; try discriminate.
  intros H. inversion H; subst d'. clear H.
  destruct (strptime_ymd_midnight s d E) as (Hm & Hlo & Hhi).
  split; [|auto]. unfold replace_time. cbn [valid_time Z.leb andb Z.compare].
  change (valid_time 23 59 59 999000) with true. cbv iota.
  f_equal. apply Z.div_exact in Hm; [|discriminate].
  rewrite Z.mul_comm, <- Hm.
  change (time_us 23 59 59 999000) with (us_per_day - 1000). lia.
Qed.

(** X2. The end of a day is the start of the same day plus 23 hours 59
    minutes 59.999 seconds: whenever a date parses, its start is a
    midnight within the range of [datetime] and its end is one
    millisecond before the next midnight; a date that does not parse as
    a start does not parse as an end, with the same exception. *)
Theorem end_of_day_is_last_millisecond (s : string) :
  (forall d, parse_date_ymd_utc s false = Ok d ->
             parse_date_ymd_utc s true = Ok (d + us_per_day - 1000)
             /\ d mod us_per_day = 0 /\ dt_min <= d /\ d + us_per_day - 1 <= dt_max)
  /\ (forall e, parse_date_ymd_utc s false = Raise e ->
                parse_date_ymd_utc s true = Raise e).
Proof.
  split; [intros d; apply parse_date_end_of_day|].
  unfold parse_date_ymd_utc.
  destruct (Strptime.strptime_ymd s); cbn [bind]; intros e' H;
    [discriminate | exact H | discriminate].
Qed.

Lemma end_of_day_is_last_millisecond_witness :
  parse_date_ymd_utc "2025-07-03" false = Ok d_2025_07_03
  /\ parse_date_ymd_utc "2025-07-03" true = Ok (d_2025_07_03 + us_per_day - 1000).
Proof.
  assert (H : parse_date_ymd_utc "2025-07-03" false = Ok d_2025_07_03) by reflexivity.
  split; [exact H|].
  exact (proj1 (proj1 (end_of_day_is_last_millisecond "2025-07-03") _ H)).
Defined.

(** X3. The window built from two dates ends before it starts exactly
    when the second date is an earlier day than the first; for the same
    day or a later one the window start is strictly before its end. *)
Theorem window_inverted_iff_earlier_day (from to : string)
    (window_start window_end to_start : datetime) :
  parse_date_ymd_utc from false = Ok window_start ->
  parse_date_ymd_utc to true = Ok window_end ->
  parse_date_ymd_utc to false = Ok to_start ->
  (window_end < window_start <-> to_start < window_start)
  /\ (window_start <= to_start -> window_start < window_end).
Proof.
  intros Hf Ht Hs.
  destruct (parse_date_end_of_day _ _ Hf) as (_ & Hm1 & _).
  destruct (parse_date_end_of_day _ _ Hs) as (He & Hm2 & _).
  rewrite Ht in He. inversion He; subst window_end.
  apply Z.div_exact in Hm1; [|discriminate].
  apply Z.div_exact in Hm2; [|discriminate].
  unfold us_per_day, us_per_second in *.
  set (a := window_start / (86400 * 1000000)) in *.
  set (b := to_start / (86400 * 1000000)) in *.
  lia.
Qed.

Lemma window_inverted_iff_earlier_day_witness :
  (d_2025_07_01_end < d_2025_07_03 <-> d_2025_07_01 < d_2025_07_03)
  /\ (d_2025_07_03 <= d_2025_07_01 -> d_2025_07_03 < d_2025_07_01_end).
Proof.
  apply (window_inverted_iff_earlier_day "2025-07-03" "2025-07-01"); reflexivity.
Defined.

(** ** Strings and lists of entries *)

Lemma lstrip_length s : (String.length (PyStr.lstrip s) <= String.length s)%nat.
Proof.
  induction s as [|c r IH]; cbn [PyStr.lstrip String.length]; [lia|].
  destruct (PyStr.isspace c); cbn [String.length]; lia.
Qed.

Lemma rstrip_length s : (String.length (PyStr.rstrip s) <= String.length s)%nat.
Proof.
  induction s as [|c r IH]; cbn [PyStr.rstrip String.length]; [lia|].
  destruct (PyStr.rstrip r); [destruct (PyStr.isspace c)|];
    cbn [String.length] in *; lia.
Qed.

Lemma rstrip_idem s : PyStr.rstrip (PyStr.rstrip s) = PyStr.rstrip s.
Proof.
  induction s as [|c r IH]; [reflexivity|]. cbn [PyStr.rstrip].
  destruct (PyStr.rstrip r) as [|c' r'] eqn:E.
  - destruct (PyStr.isspace c) eqn:S; [reflexivity|].
    cbn [PyStr.rstrip]. rewrite S. reflexivity.
  - change (PyStr.rstrip (String c (String c' r')))
      with (match PyStr.rstrip (String c' r') with
            | EmptyString =>
                if PyStr.isspace c then EmptyString else String c EmptyString
            | r0 => String c r0
            end).
    rewrite IH. reflexivity.
Qed.

Lemma rstrip_head c r :
  PyStr.isspace c = false -> exists r', PyStr.rstrip (String c r) = String c r'.
Proof.
  intros S. cbn [PyStr.rstrip]. destruct (PyStr.rstrip r); [rewrite S|]; eauto.
Qed.

Lemma lstrip_head s :
  PyStr.lstrip s = EmptyString
  \/ exists c r, PyStr.lstrip s = String c r /\ PyStr.isspace c = false.
Proof.
  induction s as [|c r IH]; [left; reflexivity|]. cbn [PyStr.lstrip].
  destruct (PyStr.isspace c) eqn:S; [exact IH|]. right. eauto.
Qed.

Lemma strip_idem s : PyStr.strip (PyStr.strip s) = PyStr.strip s.
Proof.
  unfold PyStr.strip. destruct (lstrip_head s) as [->|(c & r & -> & S)];
    [reflexivity|].
  destruct (rstrip_head c r S) as (r' & E). rewrite E.
  cbn [PyStr.lstrip]. rewrite S, <- E. apply rstrip_idem.
Qed.

(** A stripped entry that is not empty starts with a character that is
    not white space, so that stripping on the left leaves it as it is. *)
Lemma stripped_lstrip s : PyStr.strip s = s -> PyStr.lstrip s = s /\ PyStr.rstrip s = s.
Proof.
  intros H. assert (L : PyStr.lstrip s = s).
  { destruct s as [|c r]; [reflexivity|]. cbn [PyStr.lstrip].
    destruct (PyStr.isspace c) eqn:S; [|reflexivity]. exfalso.
    unfold PyStr.strip in H. cbn [PyStr.lstrip] in H. rewrite S in H.
    pose proof (rstrip_length (PyStr.lstrip r)). pose proof (lstrip_length r).
    rewrite H in *. cbn [String.length] in *. lia. }
  split; [exact L|]. unfold PyStr.strip in H. rewrite L in H. exact H.
Qed.

Lemma chars_lstrip c s :
  In c (list_ascii_of_string (PyStr.lstrip s)) -> In c (list_ascii_of_string s).
Proof.
  induction s as [|a r IH]; cbn [PyStr.lstrip]; [tauto|].
  destruct (PyStr.isspace a); [|tauto]. intros H. right. exact (IH H).
Qed.

Lemma chars_rstrip c s :
  In c (list_ascii_of_string (PyStr.rstrip s)) -> In c (list_ascii_of_string s).
Proof.
  induction s as [|a r IH]; cbn [PyStr.rstrip]; [tauto|].
  destruct (PyStr.rstrip r) as [|a' r'].
  - destruct (PyStr.isspace a); cbn; tauto.
  - cbn [list_ascii_of_string In] in *. intros [H|H]; [left; exact H|].
    right. apply IH. exact H.
Qed.

Lemma no_comma_chars s :
  no_comma s = true <-> forall c, In c (list_ascii_of_string s) -> c <> ","%char.
Proof.
  unfold no_comma. rewrite negb_true_iff. split.
  - intros H c Hin ->. 
    assert (E : existsb (Ascii.eqb ",") (list_ascii_of_string s) = true);
      [|congruence].
    apply existsb_exists. exists ","%char. split; [exact Hin | reflexivity].
  - intros H. destruct (existsb (Ascii.eqb ",") (list_ascii_of_string s)) eqn:E;
      [|reflexivity].
    apply existsb_exists in E. destruct E as (c & Hin & Hc).
    apply Ascii.eqb_eq in Hc. subst c. exfalso. exact (H _ Hin eq_refl).
Qed.

Lemma no_comma_strip s : no_comma s = true -> no_comma (PyStr.strip s) = true.
Proof.
  rewrite !no_comma_chars. intros H c Hin. apply H.
  apply chars_lstrip, chars_rstrip. exact Hin.
Qed.

Lemma split_no_comma s x : In x (PyStr.split "," s) -> no_comma x = true.
Proof.
  revert x. induction s as [|c r IH]; intros x; cbn [PyStr.split].
  - intros [<-|[]]. reflexivity.
  - destruct (Ascii.eqb_spec c ","%char) as [->|Hc].
    + intros [<-|H]; [reflexivity | apply IH; exact H].
    + destruct (PyStr.split "," r) as [|w ws] eqn:E.
      * intros [<-|[]]. unfold no_comma. cbn [list_ascii_of_string existsb].
        destruct (Ascii.eqb_spec ","%char c); [congruence | reflexivity].
      * intros [<-|H]; [|apply IH; right; exact H].
        assert (Hw : no_comma w = true) by (apply IH; left; reflexivity).
        unfold no_comma in *. cbn [list_ascii_of_string existsb].
        destruct (Ascii.eqb_spec ","%char c); [congruence | exact Hw].
Qed.

(** X4. Every entry that [csv_list] returns is the stripped form of a
    comma-separated piece of the input, is not empty, has no white
    space at either end and holds no comma. *)
Theorem csv_list_entries (s x : string) :
  In x (csv_list s) ->
  clean_entry x
  /\ exists piece, In piece (PyStr.split "," s) /\ x = PyStr.strip piece.
Proof.
  unfold csv_list. intros H. apply in_map_iff in H.
  destruct H as (piece & <- & H). apply filter_In in H. destruct H as [Hin Ht].
  split; [|eauto]. split; [|split].
  - apply truthy_nonempty. exact Ht.
  - apply strip_idem.
  - apply no_comma_strip. eapply split_no_comma. exact Hin.
Qed.

Lemma csv_list_entries_witness :
  In "QA in progress" (csv_list "In Progress, QA in progress ,,Code Review")
  /\ clean_entry "QA in progress".
Proof.
  assert (H : In "QA in progress"
                 (csv_list "In Progress, QA in progress ,,Code Review"))
    by (right; left; reflexivity).
  split; [exact H|]. exact (proj1 (csv_list_entries _ _ H)).
Defined.

Lemma split_single x : no_comma x = true -> PyStr.split "," x = [x].
Proof.
  unfold no_comma. induction x as [|c r IH]; [reflexivity|].
  cbn [list_ascii_of_string existsb PyStr.split]. rewrite Ascii.eqb_sym.
  destruct (Ascii.eqb c ","); cbn [orb negb]; [discriminate|].
  intros H. rewrite (IH H). reflexivity.
Qed.

Lemma split_app x r :
  no_comma x = true -> PyStr.split "," (x ++ String "," r) = x :: PyStr.split "," r.
Proof.
  unfold no_comma. induction x as [|c x' IH].
  - intros _. reflexivity.
  - cbn [list_ascii_of_string existsb append PyStr.split]. rewrite Ascii.eqb_sym.
    destruct (Ascii.eqb c ","); cbn [orb negb]; [discriminate|].
    intros H. rewrite (IH H). reflexivity.
Qed.

Lemma csv_list_pieces s p ps :
  PyStr.split "," s = p :: ps ->
  csv_list s
  = ((if PyStr.truthy (PyStr.strip p) then [PyStr.strip p] else [])
     ++ map PyStr.strip (filter (fun i => PyStr.truthy (PyStr.strip i)) ps))%list.
Proof.
  intros H. unfold csv_list. rewrite H. cbn [filter].
  destruct (PyStr.truthy (PyStr.strip p)); reflexivity.
Qed.

Lemma strip_padded (sp : bool) x :
  PyStr.strip x = x ->
  PyStr.strip ((if sp then " " else EmptyString) ++ x) = x.
Proof.
  intros H. destruct sp; [|exact H].
  cbn [append]. unfold PyStr.strip. cbn [PyStr.lstrip].
  change (PyStr.isspace " ") with true. cbv iota. exact H.
Qed.

Lemma no_comma_padded (sp : bool) x :
  no_comma x = true -> no_comma ((if sp then " " else EmptyString) ++ x) = true.
Proof. destruct sp; intros H; exact H. Qed.

Lemma csv_list_join_padded (l : list string) (sp : bool) :
  Forall clean_entry l ->
  csv_list ((if sp then " " else EmptyString) ++ PyStr.join ", " l) = l.
Proof.
  revert sp. induction l as [|x l IH]; intros sp Hl.
  - destruct sp; reflexivity.
  - inversion Hl as [|? ? (Hne & Hs & Hc) Hl']; subst.
    destruct l as [|y l'].
    + change (PyStr.join ", " [x]) with x.
      rewrite (csv_list_pieces _ _ [] (split_single _ (no_comma_padded sp x Hc))).
      rewrite strip_padded by exact Hs.
      apply truthy_nonempty in Hne. rewrite Hne. reflexivity.
    + change (PyStr.join ", " (x :: y :: l'))
        with (x ++ String "," (String " " (PyStr.join ", " (y :: l')))).
      replace ((if sp then " " else EmptyString)
               ++ x ++ String "," (String " " (PyStr.join ", " (y :: l'))))
        with (((if sp then " " else EmptyString) ++ x)
              ++ String "," (String " " (PyStr.join ", " (y :: l'))))
        by (destruct sp; reflexivity).
      rewrite (csv_list_pieces _ _ _ (split_app _ _ (no_comma_padded sp x Hc))).
      rewrite strip_padded by exact Hs.
      apply truthy_nonempty in Hne. rewrite Hne. cbn [app]. f_equal.
      exact (IH true Hl').
Qed.

(** X5. Joining clean entries with a comma and a space, as
    [wrap_projects_for_jql] does, and reading the result back with
    [csv_list] returns the entries. *)
Theorem csv_list_of_joined (l : list string) :
  Forall clean_entry l ->
  csv_list (wrap_projects_for_jql l) = l.
Proof. intros H. exact (csv_list_join_padded l false H). Qed.

Lemma csv_list_of_joined_witness :
  Forall clean_entry ["TBR"; "IONG"]
  /\ csv_list (wrap_projects_for_jql ["TBR"; "IONG"]) = ["TBR"; "IONG"].
Proof.
  assert (H : Forall clean_entry ["TBR"; "IONG"]).
  { repeat constructor; discriminate. }
  split; [exact H | exact (csv_list_of_joined _ H)].
Defined.

Lemma length_append (a b : string) :
  String.length (a ++ b) = (String.length a + String.length b)%nat.
Proof. induction a as [|c a IH]; cbn [append String.length]; [reflexivity | now rewrite IH]. Qed.

(** X6. [quote_if_needed] leaves a value unchanged exactly when it is
    not empty, holds no white space and is not, in any case, one of the
    reserved words; every other value is wrapped in double quotes, so
    that the result is never empty. *)
Theorem quote_if_needed_unchanged (value : string) :
  (quote_if_needed value = value <->
   value <> EmptyString
   /\ PyStr.any_space value = false
   /\ PyStr.mem (PyStr.lower value) reserved_words = false)
  /\ (quote_if_needed value <> value ->
      quote_if_needed value = PyStr.dquote ++ value ++ PyStr.dquote)
  /\ quote_if_needed value <> EmptyString.
Proof.
  assert (Q : PyStr.dquote ++ value ++ PyStr.dquote <> value).
  { intros E. apply (f_equal String.length) in E.
    rewrite !length_append in E. cbn in E. lia. }
  unfold quote_if_needed. destruct value as [|c r].
  - cbn [PyStr.truthy negb]. split; [|split].
    + split; [intros H; discriminate H | intros (H & _); congruence].
    + intros _. reflexivity.
    + discriminate.
  - cbn [PyStr.truthy negb].
    destruct (PyStr.any_space (String c r)
              || PyStr.mem (PyStr.lower (String c r)) reserved_words) eqn:E.
    + split; [|split].
      * split; [intros H; contradiction|].
        intros (_ & H1 & H2). rewrite H1, H2 in E. discriminate.
      * intros _. reflexivity.
      * discriminate.
    + apply orb_false_iff in E. destruct E as [E1 E2]. split; [|split].
      * split; [intros _; repeat split; [discriminate | assumption | assumption]
               | intros _; reflexivity].
      * intros H. congruence.
      * discriminate.
Qed.

(** ** The stable sort *)

Section StableSort.

Context {A : Type} (le : A -> A -> bool).

Hypothesis le_total : forall a b, le a b = false -> le b a = true.
Hypothesis le_trans : forall a b c, le a b = true -> le b c = true -> le a c = true.

Lemma insert_by_perm (x : A) (l : list A) : Permutation (x :: l) (insert_by le x l).
Proof.
  induction l as [|y l IH]; cbn [insert_by]; [reflexivity|].
  destruct (le x y); [reflexivity|].
  rewrite perm_swap. constructor. exact IH.
Qed.

Lemma sort_by_perm (l : list A) : Permutation l (sort_by le l).
Proof.
  induction l as [|x l IH]; [constructor|].
  unfold sort_by in *. cbn [fold_right].
  rewrite <- insert_by_perm. constructor. exact IH.
Qed.

Lemma insert_by_hd (x y : A) (l : list A) :
  le y x = true ->
  HdRel (fun a b => le a b = true) y l ->
  HdRel (fun a b => le a b = true) y (insert_by le x l).
Proof.
  intros Hyx Hl. destruct l as [|z l]; cbn [insert_by].
  - constructor. exact Hyx.
  - destruct (le x z); constructor; [exact Hyx|].
    inversion Hl; subst. assumption.
Qed.

Lemma insert_by_sorted (x : A) (l : list A) :
  Sorted (fun a b => le a b = true) l ->
  Sorted (fun a b => le a b = true) (insert_by le x l).
Proof.
  induction l as [|y l IH]; intros Hs; cbn [insert_by].
  - repeat constructor.
  - destruct (le x y) eqn:E.
    + constructor; [exact Hs | constructor; exact E].
    + inversion Hs; subst. constructor; [apply IH; assumption|].
      apply insert_by_hd; [apply le_total; exact E | assumption].
Qed.

Lemma sort_by_sorted (l : list A) : Sorted (fun a b => le a b = true) (sort_by le l).
Proof.
  induction l as [|x l IH]; [constructor|].
  unfold sort_by in *. cbn [fold_right]. apply insert_by_sorted. exact IH.
Qed.

(** Elements with the key of [k] keep their order. *)
Lemma insert_by_stable (k x : A) (l : list A) :
  filter (fun c => le k c && le c k) (insert_by le x l)
  = filter (fun c => le k c && le c k) (x :: l).
Proof.
  induction l as [|y l IH]; cbn [insert_by]; [reflexivity|].
  destruct (le x y) eqn:E; [reflexivity|].
  cbn [filter] in *. rewrite IH.
  destruct (le k x && le x k) eqn:Kx; [|reflexivity].
  destruct (le k y && le y k) eqn:Ky; [|reflexivity].
  apply andb_true_iff in Kx, Ky. destruct Kx as [K1 K2], Ky as [K3 K4].
  rewrite (le_trans x k y K2 K3) in E. discriminate.
Qed.

Lemma sort_by_stable (k : A) (l : list A) :
  filter (fun c => le k c && le c k) (sort_by le l)
  = filter (fun c => le k c && le c k) l.
Proof.
  induction l as [|x l IH]; [reflexivity|].
  unfold sort_by in *. cbn [fold_right]. rewrite insert_by_stable.
  cbn [filter]. rewrite IH. reflexivity.
Qed.

(** A list that is in order already is left as it is. *)
Lemma sort_by_sorted_id (l : list A) :
  StronglySorted (fun a b => le a b = true) l -> sort_by le l = l.
Proof.
  induction l as [|x l IH]; intros Hs; [reflexivity|].
  apply StronglySorted_inv in Hs. destruct Hs as [Hs Hall].
  unfold sort_by in *. cbn [fold_right]. rewrite (IH Hs).
  destruct l as [|y l']; [reflexivity|]. cbn [insert_by].
  inversion Hall as [|? ? Hxy _]; subst. rewrite Hxy. reflexivity.
Qed.

End StableSort.

Lemma change_le_total a b : change_le a b = false -> change_le b a = true.
Proof. unfold change_le. rewrite Z.leb_gt, Z.leb_le. lia. Qed.

Lemma change_le_trans a b c :
  change_le a b = true -> change_le b c = true -> change_le a c = true.
Proof. unfold change_le. rewrite !Z.leb_le. lia. Qed.

(** ** Changelog paging *)

Lemma scan_histories_appends hs changes :
  scan_histories hs changes
  = (new <- scan_histories hs [] ;; Ok (changes ++ new)%list).
Proof.
  revert changes. induction hs as [|h r IH]; intros changes.
  - cbn. now rewrite app_nil_r.
  - cbn [scan_histories]. destruct (h_created h) as [created|]; [|apply IH].
    destruct (PyStr.truthy created); [|apply IH].
    destruct (parse_api_dt created) as [t| |]; cbn [bind]; try reflexivity.
    rewrite IH. rewrite (IH ([] ++ _)%list).
    destruct (scan_histories r []); cbn [bind]; try reflexivity.
    now rewrite app_assoc.
Qed.

(** X7. The list that [get_assignee_changes] returns is in ascending
    order of [created_dt], holds only values of [datetime], and is a
    rearrangement of the changes gathered page by page: sorting neither
    drops nor adds a change. *)
Theorem fetched_changes_sorted (get : Z -> response changelog_data)
    (issue_key : string) (fuel : nat) (changes : list change) (err : list string) :
  get_assignee_changes get issue_key fuel = Ok (changes, err) ->
  chronological changes
  /\ representable changes
  /\ exists gathered,
      changelog_loop get issue_key fuel 0 [] = Ok (gathered, err)
      /\ Permutation gathered changes.
Proof.
  intros H. destruct (get_assignee_changes_sorted _ _ _ _ _ H) as [Hs Hr].
  split; [exact Hs|]. split; [exact Hr|].
  unfold get_assignee_changes in H.
  destruct (changelog_loop get issue_key fuel 0 []) as [[cs e]| |];
    cbn [bind] in H; try discriminate.
  inversion H; subst. exists cs. split; [reflexivity | apply sort_by_perm].
Qed.

(** Three records out of order, two of them at the same instant under
    different offsets: the list comes back in order of time. *)
Lemma fetched_changes_sorted_witness :
  get_assignee_changes (changelog_unordered "TBR-1") "TBR-1" 1
  = Ok (three_changes, [])
  /\ chronological three_changes
  /\ representable three_changes
  /\ exists gathered,
      changelog_loop (changelog_unordered "TBR-1") "TBR-1" 1 0 [] = Ok (gathered, [])
      /\ Permutation gathered three_changes
      /\ gathered = [carol_to_dave; alice_to_bob; bob_to_carol].
Proof.
  assert (H : get_assignee_changes (changelog_unordered "TBR-1") "TBR-1" 1
              = Ok (three_changes, [])) by reflexivity.
  split; [exact H|].
  destruct (fetched_changes_sorted _ _ _ _ _ H) as (Hs & Hr & gathered & Hg & Hp).
  split; [exact Hs|]. split; [exact Hr|].
  exists gathered. split; [exact Hg|]. split; [exact Hp|].
  assert (E : changelog_loop (changelog_unordered "TBR-1") "TBR-1" 1 0 []
              = Ok ([carol_to_dave; alice_to_bob; bob_to_carol], []))
    by reflexivity.
  rewrite E in Hg. inversion Hg. reflexivity.
Defined.

(** X8. The sort of [get_assignee_changes] is stable: the changes that
    carry one and the same timestamp come out in the order in which
    the pages gave them. *)
Theorem fetched_changes_stable (get : Z -> response changelog_data)
    (issue_key : string) (fuel : nat) (gathered : list change) (err : list string)
    (t : datetime) :
  changelog_loop get issue_key fuel 0 [] = Ok (gathered, err) ->
  exists changes,
    get_assignee_changes get issue_key fuel = Ok (changes, err)
    /\ filter (fun c => created_dt c =? t) changes
       = filter (fun c => created_dt c =? t) gathered.
Proof.
  intros H. unfold get_assignee_changes. rewrite H. cbn [bind].
  eexists. split; [reflexivity|].
  pose proof (sort_by_stable change_le change_le_trans
                (mk_change t None None None None) gathered) as S.
  assert (E : forall l,
             filter (fun c => change_le (mk_change t None None None None) c
                              && change_le c (mk_change t None None None None)) l
             = filter (fun c => created_dt c =? t) l).
  { intros l. apply filter_ext. intros c. unfold change_le. cbn [created_dt].
    destruct (Z.leb_spec t (created_dt c)), (Z.leb_spec (created_dt c) t),
      (Z.eqb_spec (created_dt c) t); cbn; try reflexivity; lia. }
  rewrite !E in S. exact S.
Qed.

(** The two changes of 10:00 come back in the order of the page. *)
Lemma fetched_changes_stable_witness :
  changelog_loop (changelog_unordered "TBR-1") "TBR-1" 1 0 []
  = Ok ([carol_to_dave; alice_to_bob; bob_to_carol], [])
  /\ exists changes,
      get_assignee_changes (changelog_unordered "TBR-1") "TBR-1" 1 = Ok (changes, [])
      /\ filter (fun c => created_dt c =? t_2025_07_02_10h) changes
         = [alice_to_bob; bob_to_carol].
Proof.
  assert (H : changelog_loop (changelog_unordered "TBR-1") "TBR-1" 1 0 []
              = Ok ([carol_to_dave; alice_to_bob; bob_to_carol], []))
    by reflexivity.
  split; [exact H|].
  exact (fetched_changes_stable (changelog_unordered "TBR-1") "TBR-1" 1
           [carol_to_dave; alice_to_bob; bob_to_carol] [] t_2025_07_02_10h H).
Defined.

Lemma changelog_loop_bounded get issue_key total :
  (forall s, status_code (get s) = 200) ->
  (forall s, c_total (json (get s)) = Some total) ->
  (forall s, exists cs, scan_histories (page_histories (json (get s))) [] = Ok cs) ->
  forall n start_at changes,
    (0 < n)%nat ->
    total <= start_at + max_results * Z.of_nat n ->
    exists changes', changelog_loop get issue_key n start_at changes = Ok (changes', []).
Proof.
  intros Hs Ht Hscan. induction n as [|n IH]; intros start_at changes Hn Hb; [lia|].
  cbn [changelog_loop]. rewrite Hs, Ht. cbn [Z.eqb negb].
  change ((200 =? 200)) with true. cbn [negb].
  rewrite scan_histories_appends. destruct (Hscan start_at) as (cs & ->).
  cbn [bind]. destruct (Z.geb_spec (start_at + max_results) total) as [Hge|Hlt].
  - eexists. reflexivity.
  - apply IH; unfold max_results in *; lia.
Qed.

(** X9. When every page is served, parses and reports the same
    [total], the paging loop ends without an error line after at most
    one request for each hundred records, and at least one. *)
Theorem changelog_pages_bounded (get : Z -> response changelog_data)
    (issue_key : string) (total : Z) (n : nat) :
  (forall s, status_code (get s) = 200) ->
  (forall s, c_total (json (get s)) = Some total) ->
  (forall s, exists cs, scan_histories (page_histories (json (get s))) [] = Ok cs) ->
  (0 < n)%nat ->
  total <= max_results * Z.of_nat n ->
  exists changes, get_assignee_changes get issue_key n = Ok (changes, []).
Proof.
  intros Hs Ht Hscan Hn Hb.
  destruct (changelog_loop_bounded get issue_key total Hs Ht Hscan n 0 [] Hn Hb)
    as (cs & H).
  unfold get_assignee_changes. rewrite H. cbn [bind]. eauto.
Qed.

Lemma changelog_pages_bounded_witness :
  exists changes,
    get_assignee_changes (changelog_wellformed "TBR-1") "TBR-1" 1 = Ok (changes, []).
Proof.
  apply (changelog_pages_bounded (changelog_wellformed "TBR-1") "TBR-1" 1 1).
  - intros s. reflexivity.
  - intros s. reflexivity.
  - intros s. eexists. reflexivity.
  - lia.
  - unfold max_results. lia.
Defined.

(** X10. The paging loop has no bound of its own: against a service
    that serves every page without a [total] and with [isLast] false,
    it never ends, whatever the number of requests allowed. *)
Theorem changelog_never_ends (get : Z -> response changelog_data)
    (issue_key : string) :
  (forall s, status_code (get s) = 200) ->
  (forall s, c_total (json (get s)) = None) ->
  (forall s, c_isLast (json (get s)) = Some false) ->
  (forall s, exists cs, scan_histories (page_histories (json (get s))) [] = Ok cs) ->
  forall fuel, get_assignee_changes get issue_key fuel = OutOfFuel.
Proof.
  intros Hs Ht Hl Hscan fuel.
  assert (L : forall start_at changes,
             changelog_loop get issue_key fuel start_at changes = OutOfFuel).
  { induction fuel as [|n IH]; intros start_at changes; [reflexivity|].
    cbn [changelog_loop]. rewrite Hs, Ht, Hl.
    change ((200 =? 200)) with true. cbn [negb].
    rewrite scan_histories_appends. destruct (Hscan start_at) as (cs & ->).
    cbn [bind]. apply IH. }
  unfold get_assignee_changes. rewrite L. reflexivity.
Qed.

Lemma changelog_never_ends_witness :
  get_assignee_changes (changelog_endless "TBR-1") "TBR-1" 1000 = OutOfFuel.
Proof.
  apply (changelog_never_ends (changelog_endless "TBR-1") "TBR-1").
  - intros s. reflexivity.
  - intros s. reflexivity.
  - intros s. reflexivity.
  - intros s. eexists. reflexivity.
Defined.

(** ** Holders in the window *)

(** X11. Every holder emitted for a window comes from an interval of
    the timeline; its overlap range lies inside the window and inside
    that interval, and is not inverted when neither the window nor the
    interval is. *)
Theorem holders_within_window (ivs : list interval) (window_start window_end : datetime)
    (h : holder) :
  In h (holders ivs window_start window_end) ->
  exists iv,
    In iv ivs
    /\ h_id h = iv_id iv /\ h_name h = iv_name iv
    /\ window_start <= overlap_start h /\ overlap_end h <= window_end
    /\ iv_start iv <= overlap_start h /\ overlap_end h <= iv_end iv
    /\ (window_start <= window_end -> iv_start iv <= iv_end iv ->
        overlap_start h <= overlap_end h).
Proof.
  intros H. apply holders_In in H. destruct H as (iv & Hin & Hov & ->).
  exists iv. cbn [h_id h_name overlap_start overlap_end].
  unfold overlaps in Hov. apply andb_true_iff in Hov.
  rewrite !Z.leb_le in Hov. repeat split; try reflexivity; try assumption; lia.
Qed.

Lemma holders_within_window_witness :
  exists iv,
    In iv [mk_interval dt_min dt_max (Some "u-carol") (Some "Carol")]
    /\ Some "u-carol" = iv_id iv /\ Some "Carol" = iv_name iv
    /\ d_2025_07_01 <= d_2025_07_01 /\ d_2025_07_03_end <= d_2025_07_03_end
    /\ iv_start iv <= d_2025_07_01 /\ d_2025_07_03_end <= iv_end iv
    /\ (d_2025_07_01 <= d_2025_07_03_end -> iv_start iv <= iv_end iv ->
        d_2025_07_01 <= d_2025_07_03_end).
Proof.
  apply (holders_within_window
           [mk_interval dt_min dt_max (Some "u-carol") (Some "Carol")]
           d_2025_07_01 d_2025_07_03_end
           (mk_holder (Some "u-carol") (Some "Carol") d_2025_07_01 d_2025_07_03_end)).
  left. reflexivity.
Defined.

Lemma spec_tail_ends e rest :
  StronglySorted (fun a b => created_dt a <= created_dt b) (e :: rest) ->
  representable (e :: rest) ->
  forall iv, In iv (spec_tail e rest) -> created_dt e - 1 <= iv_end iv.
Proof.
  revert e. induction rest as [|c r IH]; intros e Hs Hr iv Hin.
  - cbn in Hin. destruct Hin as [<-|[]]. cbn [spec_last iv_end].
    inversion Hr; subst. lia.
  - apply StronglySorted_inv in Hs. destruct Hs as [Hs Hall].
    inversion Hall; subst. inversion Hr; subst.
    cbn [spec_tail] in Hin. destruct Hin as [<-|Hin].
    + cbn [spec_pair iv_end]. lia.
    + specialize (IH c Hs ltac:(assumption) iv Hin). lia.
Qed.

Lemma spec_tail_ordered e rest :
  StronglySorted (fun a b => created_dt a <= created_dt b) (e :: rest) ->
  representable (e :: rest) ->
  StronglySorted (fun a b => iv_start a <= iv_start b /\ iv_end a <= iv_end b
                             /\ iv_end a < iv_start b)
                 (spec_tail e rest).
Proof.
  revert e. induction rest as [|c r IH]; intros e Hs Hr.
  - cbn. repeat constructor.
  - pose proof Hs as Hs0.
    apply StronglySorted_inv in Hs. destruct Hs as [Hs Hall].
    inversion Hall; subst. inversion Hr; subst.
    cbn [spec_tail]. constructor; [apply IH; assumption|].
    apply Forall_forall. intros iv Hin.
    pose proof (spec_tail_starts c r Hs iv Hin).
    pose proof (spec_tail_ends c r Hs ltac:(assumption) iv Hin).
    cbn [spec_pair iv_start iv_end]. lia.
Qed.

Lemma spec_timeline_ordered evs :
  chronological evs -> representable evs ->
  StronglySorted (fun a b => iv_start a <= iv_start b /\ iv_end a <= iv_end b
                             /\ iv_end a < iv_start b)
                 (spec_timeline evs).
Proof.
  intros Hs Hr. destruct evs as [|e rest]; [constructor|].
  apply Sorted_StronglySorted in Hs; [|intros x y z; lia].
  unfold spec_timeline. constructor; [apply spec_tail_ordered; assumption|].
  apply Forall_forall. intros iv Hin.
  pose proof (spec_tail_starts e rest Hs iv Hin).
  pose proof (spec_tail_ends e rest Hs Hr iv Hin).
  inversion Hr; subst. cbn [spec_first iv_start iv_end]. lia.
Qed.

Lemma StronglySorted_filter {A} (R : A -> A -> Prop) (p : A -> bool) l :
  StronglySorted R l -> StronglySorted R (filter p l).
Proof.
  induction 1 as [|a l Hs IH Hall]; cbn [filter]; [constructor|].
  destruct (p a); [|exact IH]. constructor; [exact IH|].
  rewrite Forall_forall in *. intros x Hx. apply filter_In in Hx. apply Hall, Hx.
Qed.

Lemma StronglySorted_map {A B} (R : A -> A -> Prop) (S : B -> B -> Prop)
    (f : A -> B) l :
  (forall a b, R a b -> S (f a) (f b)) ->
  StronglySorted R l -> StronglySorted S (map f l).
Proof.
  intros HRS. induction 1 as [|a l Hs IH Hall]; cbn [map]; [constructor|].
  constructor; [exact IH|]. rewrite Forall_forall in *. intros y Hy.
  apply in_map_iff in Hy. destruct Hy as (x & <- & Hx). apply HRS, Hall, Hx.
Qed.

(** The timeline that [intervals] builds, changes or not. *)
Lemma intervals_ordered f evs ivs :
  chronological evs -> representable evs ->
  intervals f evs = Ok ivs ->
  StronglySorted (fun a b => iv_start a <= iv_start b /\ iv_end a <= iv_end b
                             /\ iv_end a < iv_start b) ivs.
Proof.
  intros Hs Hr H. destruct evs as [|e rest].
  - cbn in H. inversion H; subst. repeat constructor.
  - apply intervals_inv in H. destruct H as [-> _].
    apply spec_timeline_ordered; assumption.
Qed.

Lemma holders_sorted_on_timeline f evs ivs window_start window_end :
  chronological evs ->
  representable evs ->
  intervals f evs = Ok ivs ->
  holders_sorted (holders ivs window_start window_end)
  = holders ivs window_start window_end.
Proof.
  intros Hs Hr H. unfold holders_sorted. apply sort_by_sorted_id.
  unfold holders.
  apply (StronglySorted_map
           (fun a b => iv_start a <= iv_start b /\ iv_end a <= iv_end b
                       /\ iv_end a < iv_start b)).
  - intros a b (H1 & H2 & _). unfold holder_le, holder_of.
    cbn [overlap_start overlap_end].
    destruct (Z.ltb_spec (Z.max (iv_start a) window_start)
                         (Z.max (iv_start b) window_start)); [reflexivity|].
    cbn [orb]. apply andb_true_iff. rewrite Z.eqb_eq, Z.leb_le. lia.
  - apply StronglySorted_filter. eapply intervals_ordered; eassumption.
Qed.

(** X12. On the timeline of a chronological list of changes the sort
    of the holders changes nothing: the holders are emitted in the
    order of the timeline, which is the order of their overlap ranges. *)
Theorem holders_in_timeline_order (f : issue_fields) (evs : list change)
    (ivs : list interval) (window_start window_end : datetime) :
  chronological evs ->
  representable evs ->
  intervals f evs = Ok ivs ->
  holders_sorted (holders ivs window_start window_end)
  = holders ivs window_start window_end.
Proof. apply holders_sorted_on_timeline. Qed.

Lemma holders_in_timeline_order_witness :
  holders_sorted
    (holders [mk_interval dt_min (t_2025_07_02_10h - 1) (Some "u-alice") (Some "Alice");
              mk_interval t_2025_07_02_10h dt_max (Some "u-bob") (Some "Bob")]
             d_2025_07_01 d_2025_07_03_end)
  = holders [mk_interval dt_min (t_2025_07_02_10h - 1) (Some "u-alice") (Some "Alice");
             mk_interval t_2025_07_02_10h dt_max (Some "u-bob") (Some "Bob")]
            d_2025_07_01 d_2025_07_03_end.
Proof.
  apply (holders_in_timeline_order no_fields [alice_to_bob]).
  - repeat constructor.
  - repeat constructor; discriminate.
  - reflexivity.
Defined.

Lemma unique_from_not_seen seen hs h :
  In h (unique_from seen hs) -> ~ In (holder_key h) seen.
Proof.
  revert seen. induction hs as [|x r IH]; intros seen; cbn [unique_from]; [tauto|].
  destruct (key_seen (h_id x, h_name x) seen) eqn:E.
  - apply IH.
  - intros [->|H].
    + intros Hin. apply key_seen_In in Hin. unfold holder_key in Hin. congruence.
    + intros Hin. apply (IH _ H). right. exact Hin.
Qed.

Lemma unique_from_NoDup seen hs : NoDup (map holder_key (unique_from seen hs)).
Proof.
  revert seen. induction hs as [|x r IH]; intros seen; cbn [unique_from];
    [constructor|].
  destruct (key_seen (h_id x, h_name x) seen); [apply IH|].
  cbn [map]. constructor; [|apply IH].
  intros Hin. apply in_map_iff in Hin. destruct Hin as (h & Hk & Hin).
  apply unique_from_not_seen in Hin. apply Hin. left. symmetry. exact Hk.
Qed.

Lemma unique_from_fixed seen hs :
  NoDup (map holder_key hs) ->
  (forall h, In h hs -> ~ In (holder_key h) seen) ->
  unique_from seen hs = hs.
Proof.
  revert seen. induction hs as [|x r IH]; intros seen Hn Hs; [reflexivity|].
  cbn [unique_from]. destruct (key_seen (h_id x, h_name x) seen) eqn:E.
  - apply key_seen_In in E. exfalso. apply (Hs x); [left; reflexivity | exact E].
  - cbn [map] in Hn. inversion Hn as [|? ? Hx Hr]; subst. f_equal. apply IH; [exact Hr|].
    intros h Hh [Hk|Hk].
    + apply Hx. apply in_map_iff. exists h. split; [symmetry; exact Hk | exact Hh].
    + apply (Hs h); [right; exact Hh | exact Hk].
Qed.

(** X13. The list [unique] holds no two holders with the same pair of
    id and name, keeps the first holder of the sorted list in front,
    leaves alone a list without such a pair, and is therefore not
    changed by a second pass. *)
Theorem unique_no_duplicates (hs : list holder) :
  NoDup (map holder_key (unique hs))
  /\ hd_error (unique hs) = hd_error hs
  /\ (NoDup (map holder_key hs) -> unique hs = hs)
  /\ unique (unique hs) = unique hs.
Proof.
  assert (F : NoDup (map holder_key hs) -> unique hs = hs).
  { intros H. apply unique_from_fixed; [exact H | intros h _ []]. }
  split; [apply unique_from_NoDup|]. split; [destruct hs; reflexivity|].
  split; [exact F|].
  apply unique_from_fixed; [apply unique_from_NoDup | intros h _ []].
Qed.

Lemma holder_le_total a b : holder_le a b = false -> holder_le b a = true.
Proof.
  unfold holder_le. intros H. apply orb_false_iff in H. destruct H as [H1 H2].
  apply Z.ltb_ge in H1.
  destruct (Z.ltb_spec (overlap_start b) (overlap_start a)); [reflexivity|].
  cbn [orb]. assert (E : overlap_start a = overlap_start b) by lia.
  rewrite E, Z.eqb_refl in *. cbn [andb] in *. apply Z.leb_gt in H2.
  apply Z.leb_le. lia.
Qed.

(** X14. Sorting the holders puts them in ascending order of the pair
    ([overlap_start], [overlap_end]) and neither drops nor adds one. *)
Theorem holders_sorted_ordered (hs : list holder) :
  Sorted (fun a b => holder_le a b = true) (holders_sorted hs)
  /\ Permutation hs (holders_sorted hs).
Proof.
  split; [apply sort_by_sorted, holder_le_total | apply sort_by_perm].
Qed.

(** X15. Without any change, for a window that meets the range of
    [datetime], the current assignee is the one holder, first and
    last, and holds for the whole window. *)
Theorem unchanged_issue_has_one_holder (f : issue_fields)
    (window_start window_end : datetime) :
  window_start <= dt_max ->
  dt_min <= window_end ->
  compute_assignee_window_info f [] window_start window_end
  = Ok (mk_window_info
          (PyStr.join ", " (truthy_strings [snd (current_assignee f)]))
          (PyStr.join ", " (truthy_strings [fst (current_assignee f)]))
          (snd (current_assignee f))
          (snd (current_assignee f))
          [mk_holder (fst (current_assignee f)) (snd (current_assignee f))
                     (Z.max dt_min window_start) (Z.min dt_max window_end)]).
Proof.
  intros H1 H2. unfold compute_assignee_window_info, intervals. cbn [bind].
  unfold holders. cbn [filter iv_start iv_end]. unfold overlaps.
  apply Z.leb_le in H1, H2. rewrite H1, H2. reflexivity.
Qed.

Lemma unchanged_issue_has_one_holder_witness :
  d_2025_07_01 <= dt_max
  /\ dt_min <= d_2025_07_03_end
  /\ compute_assignee_window_info (fields issue_tbr1) [] d_2025_07_01 d_2025_07_03_end
     = Ok (mk_window_info "Carol" "u-carol" (Some "Carol") (Some "Carol")
             [mk_holder (Some "u-carol") (Some "Carol")
                        d_2025_07_01 d_2025_07_03_end]).
Proof.
  assert (H1 : d_2025_07_01 <= dt_max) by discriminate.
  assert (H2 : dt_min <= d_2025_07_03_end) by discriminate.
  split; [exact H1|]. split; [exact H2|].
  exact (unchanged_issue_has_one_holder (fields issue_tbr1) _ _ H1 H2).
Defined.

Lemma filter_at_most_one {A} (R : A -> A -> Prop) (p : A -> bool) l :
  StronglySorted R l ->
  (forall a b, R a b -> p a = true -> p b = true -> False) ->
  (List.length (filter p l) <= 1)%nat.
Proof.
  intros Hs Hp. induction Hs as [|a l Hs IH Hall]; cbn [filter]; [cbn; lia|].
  destruct (p a) eqn:Pa; [|exact IH].
  assert (E : filter p l = []).
  { destruct (filter p l) as [|b r] eqn:F; [reflexivity|]. exfalso.
    assert (Hb : In b (filter p l)) by (rewrite F; left; reflexivity).
    apply filter_In in Hb. destruct Hb as [Hin Pb].
    rewrite Forall_forall in Hall. exact (Hp a b (Hall b Hin) Pa Pb). }
  rewrite E. cbn. lia.
Qed.

(** X16. For a window that ends before it starts, at most one holder
    is reported: only an interval that spans from the window end to the
    window start can meet such a window. *)
Theorem inverted_window_one_holder (f : issue_fields) (evs : list change)
    (ivs : list interval) (window_start window_end : datetime) :
  chronological evs ->
  representable evs ->
  intervals f evs = Ok ivs ->
  window_end < window_start ->
  (List.length (holders ivs window_start window_end) <= 1)%nat
  /\ forall h, In h (holders ivs window_start window_end) ->
               exists iv, In iv ivs /\ iv_start iv <= window_end
                          /\ window_start <= iv_end iv.
Proof.
  intros Hs Hr H Hinv. split.
  - unfold holders. rewrite length_map.
    eapply filter_at_most_one; [eapply intervals_ordered; eassumption|].
    intros a b (_ & _ & Hab) Pa Pb. unfold overlaps in Pa, Pb.
    apply andb_true_iff in Pa, Pb. rewrite !Z.leb_le in Pa, Pb. lia.
  - intros h Hh. apply holders_In in Hh. destruct Hh as (iv & Hin & Hov & _).
    unfold overlaps in Hov. apply andb_true_iff in Hov. rewrite !Z.leb_le in Hov.
    exists iv. tauto.
Qed.

(** An issue without changes and the window from 2025-07-03 back to
    2025-07-01: the one interval spans it, and Carol is the one
    holder. *)
Lemma inverted_window_one_holder_witness :
  d_2025_07_01_end < d_2025_07_03
  /\ holders [mk_interval dt_min dt_max (Some "u-carol") (Some "Carol")]
             d_2025_07_03 d_2025_07_01_end
     = [mk_holder (Some "u-carol") (Some "Carol") d_2025_07_03 d_2025_07_01_end]
  /\ Nat.le
       (List.length
          (holders [mk_interval dt_min dt_max (Some "u-carol") (Some "Carol")]
                   d_2025_07_03 d_2025_07_01_end))
       1
  /\ exists iv,
      In iv [mk_interval dt_min dt_max (Some "u-carol") (Some "Carol")]
      /\ iv_start iv <= d_2025_07_01_end /\ d_2025_07_03 <= iv_end iv.
Proof.
  assert (Hinv : d_2025_07_01_end < d_2025_07_03) by reflexivity.
  split; [exact Hinv|]. split; [reflexivity|].
  destruct (inverted_window_one_holder (fields issue_tbr1) []
              [mk_interval dt_min dt_max (Some "u-carol") (Some "Carol")]
              d_2025_07_03 d_2025_07_01_end
              ltac:(constructor) ltac:(constructor) eq_refl Hinv) as (Hlen & Hall).
  split; [exact Hlen|].
  apply (Hall (mk_holder (Some "u-carol") (Some "Carol")
                         d_2025_07_03 d_2025_07_01_end)).
  left. reflexivity.
Defined.

(** ** Matching, case and white space *)

Lemma lower_char_idem c : PyStr.lower_char (PyStr.lower_char c) = PyStr.lower_char c.
Proof. destruct c as [[] [] [] [] [] [] [] []]; vm_compute; reflexivity. Qed.

Lemma isspace_lower_char c : PyStr.isspace (PyStr.lower_char c) = PyStr.isspace c.
Proof. destruct c as [[] [] [] [] [] [] [] []]; vm_compute; reflexivity. Qed.

Lemma lower_idem s : PyStr.lower (PyStr.lower s) = PyStr.lower s.
Proof.
  induction s as [|c r IH]; [reflexivity|]. cbn [PyStr.lower].
  now rewrite lower_char_idem, IH.
Qed.

Lemma lstrip_lower s : PyStr.lstrip (PyStr.lower s) = PyStr.lower (PyStr.lstrip s).
Proof.
  induction s as [|c r IH]; [reflexivity|]. cbn [PyStr.lower PyStr.lstrip].
  rewrite isspace_lower_char. destruct (PyStr.isspace c); [exact IH | reflexivity].
Qed.

Lemma rstrip_lower s : PyStr.rstrip (PyStr.lower s) = PyStr.lower (PyStr.rstrip s).
Proof.
  induction s as [|c r IH]; [reflexivity|]. cbn [PyStr.lower PyStr.rstrip].
  rewrite IH, isspace_lower_char.
  destruct (PyStr.rstrip r); cbn [PyStr.lower]; [|reflexivity].
  destruct (PyStr.isspace c); reflexivity.
Qed.

Lemma strip_lower s : PyStr.strip (PyStr.lower s) = PyStr.lower (PyStr.strip s).
Proof. unfold PyStr.strip. now rewrite lstrip_lower, rstrip_lower. Qed.

Lemma users_norm_lower users : users_norm (map PyStr.lower users) = users_norm users.
Proof.
  unfold users_norm. rewrite map_map. apply map_ext. intros u.
  now rewrite strip_lower, lower_idem.
Qed.

Lemma users_norm_strip users : users_norm (map PyStr.strip users) = users_norm users.
Proof.
  unfold users_norm. rewrite map_map. apply map_ext. intros u.
  now rewrite strip_idem.
Qed.

(** X17. Matching does not look at the case of either side nor at the
    white space around a filter entry: lowercasing or stripping the
    filter entries changes nothing, the entries that [csv_list] hands
    over need no further stripping, and two holders whose selected
    fields differ by case only match the same filters. *)
Theorem matching_ignores_case (hs : list holder) (users : list string)
    (accountid : bool) :
  out_unique hs (map PyStr.lower users) accountid = out_unique hs users accountid
  /\ out_unique hs (map PyStr.strip users) accountid = out_unique hs users accountid
  /\ (forall s, users_norm (csv_list s) = map PyStr.lower (csv_list s))
  /\ (forall h h' s s' norm,
         selected accountid h = Some s ->
         selected accountid h' = Some s' ->
         PyStr.lower s = PyStr.lower s' ->
         (matched norm accountid h = [] <-> matched norm accountid h' = [])).
Proof.
  split; [|split; [|split]].
  - unfold out_unique. now rewrite users_norm_lower.
  - unfold out_unique. now rewrite users_norm_strip.
  - intros s. unfold users_norm. apply map_ext_in. intros u Hu.
    unfold csv_list in Hu. apply in_map_iff in Hu. destruct Hu as (p & <- & _).
    now rewrite strip_idem.
  - intros h h' s s' norm Hs Hs' E.
    assert (T : PyStr.truthy s = PyStr.truthy s').
    { rewrite <- (truthy_lower s), <- (truthy_lower s'), E. reflexivity. }
    unfold matched, selected, name_or_empty in *. destruct accountid.
    + rewrite Hs, Hs', E, T.
      destruct (PyStr.truthy s' && PyStr.mem (PyStr.lower s') norm);
        split; intros H; try reflexivity; discriminate H.
    + rewrite Hs, Hs'. cbv zeta. rewrite !truthy_lower, E, T.
      destruct (PyStr.truthy s' && PyStr.mem (PyStr.lower s') norm);
        split; intros H; try reflexivity; discriminate H.
Qed.

Lemma matching_ignores_case_witness :
  matched (users_norm ["ALICE "]) false
          (mk_holder (Some "u-alice") (Some "Alice") dt_min dt_max) = []
  <-> matched (users_norm ["ALICE "]) false
              (mk_holder (Some "u-alice") (Some "aLiCe") dt_min dt_max) = [].
Proof.
  apply (proj2 (proj2 (proj2 (matching_ignores_case [] [] false)))
           (mk_holder (Some "u-alice") (Some "Alice") dt_min dt_max)
           (mk_holder (Some "u-alice") (Some "aLiCe") dt_min dt_max)
           "Alice" "aLiCe" (users_norm ["ALICE "]));
    reflexivity.
Defined.

Lemma out_unique_from_NoDup seen out : NoDup (out_unique_from seen out).
Proof.
  revert seen. induction out as [|x r IH]; intros seen; cbn [out_unique_from];
    [constructor|].
  destruct (PyStr.mem x seen); [apply IH|]. constructor; [|apply IH].
  intros H. apply out_unique_from_In in H. destruct H as [_ H]. apply H.
  left. reflexivity.
Qed.

(** X18. The matcher answers the empty string when there is no filter
    or an empty one; otherwise the names it joins are pairwise
    different, and there is one for each string that some holder
    contributes. *)
Theorem matcher_output_distinct (hs : list holder) (users : list string)
    (accountid : bool) :
  match_holders_to_user_filter hs None accountid = EmptyString
  /\ match_holders_to_user_filter hs (Some []) accountid = EmptyString
  /\ NoDup (out_unique hs users accountid)
  /\ (forall x, In x (out_unique hs users accountid) <->
                In x (flat_map (matched (users_norm users) accountid) hs)).
Proof.
  split; [reflexivity|]. split; [reflexivity|].
  split; [apply out_unique_from_NoDup|].
  intros x. unfold out_unique. rewrite out_unique_from_In. cbn [In]. tauto.
Qed.

(** ** The run: how it ends *)

Lemma full_match_raises {A} (p : Strptime.matcher A) s e :
  Strptime.full_match p s = Raise e -> e = ValueError.
Proof.
  unfold Strptime.full_match.
  destruct (p (list_ascii_of_string s)) as [|[a [|c r]] l]; intros H;
    inversion H; reflexivity.
Qed.

Lemma mk_datetime_raises y m d hh mi ss us e :
  mk_datetime y m d hh mi ss us = Raise e -> e = ValueError.
Proof.
  unfold mk_datetime. destruct (valid_date y m d && valid_time hh mi ss us);
    intros H; inversion H; reflexivity.
Qed.

Lemma strptime_ymd_raises s e :
  Strptime.strptime_ymd s = Raise e -> e = ValueError.
Proof.
  unfold Strptime.strptime_ymd.
  destruct (Strptime.full_match Strptime.fmt_ymd s) as [[[y m] d]| |] eqn:F;
    cbn [bind]; intros H; try discriminate H.
  - eapply mk_datetime_raises. exact H.
  - inversion H; subst. eapply full_match_raises. exact F.
Qed.

Lemma parse_date_raises s b e :
  parse_date_ymd_utc s b = Raise e -> e = ValueError.
Proof.
  unfold parse_date_ymd_utc.
  destruct (Strptime.strptime_ymd s) as [dt| |] eqn:E; cbn [bind]; intros H;
    try discriminate H.
  - destruct b; discriminate H.
  - inversion H; subst. eapply strptime_ymd_raises. exact E.
Qed.

Lemma jira_session_raises w e : jira_session w = Raise e -> e = SystemExit 1.
Proof.
  assert (Henv : forall name x, env w name = Raise x -> x = SystemExit 1).
  { intros name x. unfold env. destruct (getenv w name) as [v|];
      [destruct (PyStr.truthy v)|]; intros H; inversion H; reflexivity. }
  unfold jira_session. intros H.
  destruct (env w "JIRA_EMAIL") eqn:E1; cbn [bind] in H; try discriminate H;
    [|inversion H; subst; eapply Henv; exact E1].
  destruct (env w "JIRA_API_TOKEN") eqn:E2; cbn [bind] in H; try discriminate H;
    [|inversion H; subst; eapply Henv; exact E2].
  destruct (env w "JIRA_BASE_URL") eqn:E3; cbn [bind] in H; try discriminate H.
  inversion H; subst; eapply Henv; exact E3.
Qed.

Lemma rstrip_char_no_trailing ch s p :
  PyStr.rstrip_char ch s <> p ++ String ch EmptyString.
Proof.
  revert p. induction s as [|c r IH]; intros p; cbn [PyStr.rstrip_char].
  - destruct p; discriminate.
  - destruct (PyStr.rstrip_char ch r) as [|c' r'] eqn:E.
    + destruct (Ascii.eqb_spec c ch) as [->|Hc].
      * destruct p; discriminate.
      * destruct p as [|a [|b p']]; cbn [append]; try congruence; discriminate.
    + destruct p as [|a p']; cbn [append]; [discriminate|].
      intros H. inversion H; subst. exact (IH p' H2).
Qed.

Lemma env_ok w name v :
  env w name = Ok v <-> getenv w name = Some v /\ v <> EmptyString.
Proof.
  unfold env. destruct (getenv w name) as [x|].
  - destruct x as [|c r]; cbn [PyStr.truthy]; split.
    + discriminate.
    + intros [H1 H2]. inversion H1; subst. congruence.
    + intros H. inversion H; subst. split; [reflexivity | discriminate].
    + intros [H1 _]. inversion H1; subst. reflexivity.
  - split; [discriminate | intros [H _]; discriminate].
Qed.

Lemma env_missing w name :
  PyStr.truthy_opt (getenv w name) = false -> env w name = Raise (SystemExit 1).
Proof.
  unfold env. destruct (getenv w name) as [x|]; cbn; [|reflexivity].
  intros ->. reflexivity.
Qed.

(** X19. [jira_session] succeeds exactly with the three variables set
    and not empty, and then gives the base URL without any final
    slash; as soon as one of them is missing or empty it exits with
    status 1. *)
Theorem jira_session_needs_env (w : world) :
  (forall email token base,
      jira_session w = Ok (email, token, base) ->
      getenv w "JIRA_EMAIL" = Some email /\ email <> EmptyString
      /\ getenv w "JIRA_API_TOKEN" = Some token /\ token <> EmptyString
      /\ (exists b, getenv w "JIRA_BASE_URL" = Some b /\ b <> EmptyString
                    /\ base = PyStr.rstrip_char "/" b)
      /\ forall p, base <> p ++ "/")
  /\ (forall name,
         In name ["JIRA_EMAIL"; "JIRA_API_TOKEN"; "JIRA_BASE_URL"] ->
         PyStr.truthy_opt (getenv w name) = false ->
         jira_session w = Raise (SystemExit 1))
  /\ (forall e, jira_session w = Raise e -> e = SystemExit 1).
Proof.
  split; [|split].
  - unfold jira_session. intros email token base H.
    destruct (env w "JIRA_EMAIL") as [e| |] eqn:E1; cbn [bind] in H;
      try discriminate H.
    destruct (env w "JIRA_API_TOKEN") as [t| |] eqn:E2; cbn [bind] in H;
      try discriminate H.
    destruct (env w "JIRA_BASE_URL") as [b| |] eqn:E3; cbn [bind] in H;
      try discriminate H.
    inversion H; subst. apply env_ok in E1, E2, E3.
    destruct E1, E2, E3. repeat split; try assumption.
    + exists b. repeat split; assumption.
    + intros p. apply rstrip_char_no_trailing.
  - intros name Hin Hm. unfold jira_session.
    destruct (env w "JIRA_EMAIL") as [e| |] eqn:E1; cbn [bind].
    + destruct (env w "JIRA_API_TOKEN") as [t| |] eqn:E2; cbn [bind].
      * destruct (env w "JIRA_BASE_URL") as [b| |] eqn:E3; cbn [bind].
        -- exfalso. cbn [In] in Hin.
           destruct Hin as [<-|[<-|[<-|[]]]]; apply env_missing in Hm; congruence.
        -- f_equal. apply jira_session_raises with (w := w). unfold jira_session.
           rewrite E1, E2, E3. reflexivity.
        -- unfold env in E3. destruct (getenv w "JIRA_BASE_URL") as [x|];
             [destruct (PyStr.truthy x)|]; discriminate E3.
      * f_equal. apply jira_session_raises with (w := w). unfold jira_session.
        rewrite E1, E2. reflexivity.
      * unfold env in E2. destruct (getenv w "JIRA_API_TOKEN") as [x|];
          [destruct (PyStr.truthy x)|]; discriminate E2.
    + f_equal. apply jira_session_raises with (w := w). unfold jira_session.
      rewrite E1. reflexivity.
    + unfold env in E1. destruct (getenv w "JIRA_EMAIL") as [x|];
        [destruct (PyStr.truthy x)|]; discriminate E1.
  - apply jira_session_raises.
Qed.

Lemma jira_session_needs_env_witness :
  jira_session world_empty = Ok ("me@example.org", "secret", "https://example.atlassian.net")
  /\ forall p, "https://example.atlassian.net" <> p ++ "/".
Proof.
  assert (H : jira_session world_empty
              = Ok ("me@example.org", "secret", "https://example.atlassian.net"))
    by reflexivity.
  split; [exact H|].
  destruct (proj1 (jira_session_needs_env world_empty) _ _ _ H)
    as (_ & _ & _ & _ & _ & Hp).
  exact Hp.
Defined.

(** X21. A date of the window that does not parse ends the run with
    [ValueError] before any request is sent: whatever the service would
    answer and however many requests are allowed, the outcome is the
    same. *)
Theorem bad_date_aborts_before_requests (w : world) (a : args) (e : exn) :
  csv_list (a_projects a) <> [] ->
  csv_list (in_progress_statuses a) <> [] ->
  (exists s, jira_session w = Ok s) ->
  parse_date_ymd_utc (date_from a) false = Raise e
  \/ (exists window_start, parse_date_ymd_utc (date_from a) false = Ok window_start)
     /\ parse_date_ymd_utc (date_to a) true = Raise e ->
  e = ValueError
  /\ forall post get fuel, main (mk_world (getenv w) post get) a fuel = Raise e.
Proof.
  intros Hp Hi (s & Hs) Hd. split.
  - destruct Hd as [H|[_ H]]; eapply parse_date_raises; exact H.
  - intros post get fuel. unfold main.
    destruct (csv_list (a_projects a)); [congruence|].
    destruct (csv_list (in_progress_statuses a)); [congruence|].
    cbv zeta.
    assert (J : jira_session (mk_world (getenv w) post get) = Ok s) by exact Hs.
    rewrite J. cbn [bind].
    destruct Hd as [H|[(ws & H1) H2]].
    + rewrite H. reflexivity.
    + rewrite H1. cbn [bind]. rewrite H2. reflexivity.
Qed.

Lemma bad_date_aborts_before_requests_witness :
  parse_date_ymd_utc (date_to args_bad_date) true = Raise ValueError
  /\ forall post get fuel,
      main (mk_world env_set post get) args_bad_date fuel = Raise ValueError.
Proof.
  assert (H : parse_date_ymd_utc (date_to args_bad_date) true = Raise ValueError)
    by reflexivity.
  split; [exact H|].
  refine (proj2 (bad_date_aborts_before_requests world_empty args_bad_date ValueError
                   _ _ _ _)).
  - discriminate.
  - discriminate.
  - eexists. reflexivity.
  - right. split; [eexists; reflexivity | exact H].
Defined.

(** X22. A refused search page ends the run with exit status 2,
    whatever was processed before: on the first page at once, on a
    later page after the issues of the earlier pages have been
    processed, and without their rows. *)
Theorem refused_search_exits (w : world) (a : args) (fuel : nat)
    (window_start window_end : datetime) :
  ready w a window_start window_end ->
  (status_code (search_post w (jql_of a) None) <> 200 ->
   main w a (S fuel) = Raise (SystemExit 2))
  /\ (forall t rows err,
         status_code (search_post w (jql_of a) None) = 200 ->
         s_isLast (json (search_post w (jql_of a) None)) <> Some true ->
         s_nextPageToken (json (search_post w (jql_of a) None)) = Some t ->
         t <> EmptyString ->
         process_issues w (users_of a) (use_accountid a) window_start window_end
                        (S (S fuel)) (s_issues (json (search_post w (jql_of a) None)))
                        [] [] = Ok (rows, err) ->
         status_code (search_post w (jql_of a) (Some t)) <> 200 ->
         main w a (S (S fuel)) = Raise (SystemExit 2)).
Proof.
  intros Hr. split.
  - intros Hs. rewrite (main_ready _ _ _ _ _ Hr). cbn [search_loop].
    destruct (Z.eqb_spec (status_code (search_post w (jql_of a) None)) 200);
      [contradiction | reflexivity].
  - intros t rows err Hs Hl Ht Hne Hp Hs2.
    rewrite (main_ready _ _ _ _ _ Hr).
    remember (S fuel) as n. cbn [search_loop]. rewrite Hs, Hp, Ht.
    change (200 =? 200) with true. cbn [negb bind].
    apply truthy_nonempty in Hne. rewrite Hne.
    assert (L : match s_isLast (json (search_post w (jql_of a) None)) with
                | Some b => b
                | None => false
                end = false).
    { destruct (s_isLast (json (search_post w (jql_of a) None))) as [[|]|];
        congruence. }
    rewrite L. subst n. cbn [search_loop].
    destruct (Z.eqb_spec (status_code (search_post w (jql_of a) (Some t))) 200);
      [contradiction | reflexivity].
Qed.

Lemma refused_search_exits_witness :
  ready world_search_refused args_july d_2025_07_01 d_2025_07_03_end
  /\ main world_search_refused args_july 2 = Raise (SystemExit 2).
Proof.
  assert (Hr : ready world_search_refused args_july d_2025_07_01 d_2025_07_03_end)
    by (apply ready_july; reflexivity).
  split; [exact Hr|].
  eapply (proj2 (refused_search_exits world_search_refused args_july 0 _ _ Hr)
            "p2"); try reflexivity; discriminate.
Defined.

Lemma process_issues_keys w users accountid ws we fuel its rows err rows' err' :
  process_issues w users accountid ws we fuel its rows err = Ok (rows', err') ->
  map r_key rows' = (map r_key rows ++ map key its)%list.
Proof.
  revert rows err. induction its as [|it r IH]; intros rows err H.
  - inversion H; subst. cbn. now rewrite app_nil_r.
  - rewrite process_issues_cons in H.
    destruct (process_issue w users accountid ws we fuel it) as [[row e]| |] eqn:P;
      cbn [bind] in H; try discriminate H.
    apply IH in H. rewrite H, map_app. cbn [map]. rewrite <- app_assoc.
    cbn [app]. do 2 f_equal.
    unfold process_issue in P.
    destruct (get_assignee_changes (changelog_get w (key it)) (key it) fuel)
      as [[cs e0]| |]; cbn [bind] in P; try discriminate P.
    destruct (compute_assignee_window_info (fields it) cs ws we);
      cbn [bind] in P; try discriminate P.
    inversion P; subst. reflexivity.
Qed.

(** X23. A run over a search that ends with its first page returns one
    row for each issue of that page, in the order of the page, each row
    carrying the key of its issue. *)
Theorem rows_follow_issues (w : world) (a : args) (fuel : nat)
    (window_start window_end : datetime) (rows : list row) (err : list string) :
  ready w a window_start window_end ->
  status_code (search_post w (jql_of a) None) = 200 ->
  s_isLast (json (search_post w (jql_of a) None)) = Some true ->
  main w a fuel = Ok (rows, err) ->
  map r_key rows = map key (s_issues (json (search_post w (jql_of a) None)))
  /\ List.length rows
     = List.length (s_issues (json (search_post w (jql_of a) None))).
Proof.
  intros Hr Hs Hl H. rewrite (main_ready _ _ _ _ _ Hr) in H.
  destruct fuel as [|fuel]; [discriminate H|].
  cbn [search_loop] in H. rewrite Hs, Hl in H.
  change (200 =? 200) with true in H. cbn [negb] in H.
  destruct (process_issues w (users_of a) (use_accountid a) window_start window_end
              (S fuel) (s_issues (json (search_post w (jql_of a) None))) [] [])
    as [[rows' err']| |] eqn:P; cbn [bind] in H; try discriminate H.
  inversion H; subst. apply process_issues_keys in P. cbn [map app] in P.
  split; [exact P|].
  rewrite <- (length_map r_key), P, length_map. reflexivity.
Qed.

Lemma rows_follow_issues_witness :
  exists rows err,
    main world_wellformed args_july 1 = Ok (rows, err)
    /\ map r_key rows = ["TBR-1"].
Proof.
  eexists. eexists.
  assert (H : main world_wellformed args_july 1
              = Ok ([make_row issue_tbr1
                       (mk_window_info "Alice, Bob" "u-alice, u-bob"
                          (Some "Alice") (Some "Bob")
                          [mk_holder (Some "u-alice") (Some "Alice")
                                     d_2025_07_01 (t_2025_07_02_10h - 1);
                           mk_holder (Some "u-bob") (Some "Bob")
                                     t_2025_07_02_10h d_2025_07_03_end])
                       EmptyString], []))
    by (vm_compute; reflexivity).
  split; [exact H|].
  exact (proj1 (rows_follow_issues world_wellformed args_july 1
                  d_2025_07_01 d_2025_07_03_end _ _
                  (ready_july world_wellformed eq_refl) eq_refl eq_refl H)).
Defined.

(** ** First holder, and when the timeline cannot be built *)

Lemma intervals_cover_instant f evs ivs t :
  chronological evs ->
  intervals f evs = Ok ivs ->
  dt_min <= t <= dt_max ->
  exists iv, In iv ivs /\ iv_start iv <= t <= iv_end iv.
Proof.
  intros Hs H Ht. destruct evs as [|e rest].
  - cbn in H. inversion H; subst. eexists. split; [left; reflexivity|].
    cbn [iv_start iv_end]. exact Ht.
  - apply intervals_inv in H. destruct H as [-> _].
    apply (cc_cover _ (spec_timeline_cover e rest Hs)). exact Ht.
Qed.

Lemma filter_starts_with {A} (R : A -> A -> Prop) (p : A -> bool) (x : A) l :
  StronglySorted R l ->
  In x l ->
  p x = true ->
  (forall a, R a x -> p a = false) ->
  exists r, filter p l = x :: r.
Proof.
  intros Hs Hin Px Hbefore. induction Hs as [|a l Hs IH Hall]; [destruct Hin|].
  cbn [filter]. destruct Hin as [->|Hin].
  - rewrite Px. eauto.
  - rewrite Forall_forall in Hall. rewrite (Hbefore a (Hall x Hin)).
    apply IH. exact Hin.
Qed.

(** X24. For a window that starts within the range of [datetime] and
    does not end before it starts, the first assignee reported is the
    one who holds the issue at the start of the window. *)
Theorem first_assignee_holds_at_start (f : issue_fields) (evs : list change)
    (ivs : list interval) (window_start window_end : datetime) (win : window_info) :
  chronological evs ->
  representable evs ->
  intervals f evs = Ok ivs ->
  dt_min <= window_start <= dt_max ->
  window_start <= window_end ->
  compute_assignee_window_info f evs window_start window_end = Ok win ->
  exists iv,
    In iv ivs
    /\ iv_start iv <= window_start <= iv_end iv
    /\ first_assignee_in_window win = iv_name iv
    /\ hd_error (win_holders win) = Some (holder_of iv window_start window_end).
Proof.
  intros Hs Hr Hi Hw Hwe Hc.
  destruct (intervals_cover_instant f evs ivs window_start Hs Hi Hw) as (iv & Hin & Hiv).
  exists iv. split; [exact Hin|]. split; [exact Hiv|].
  unfold compute_assignee_window_info in Hc. rewrite Hi in Hc. cbn [bind] in Hc.
  inversion Hc; subst win; clear Hc.
  cbn [first_assignee_in_window win_holders].
  rewrite (holders_sorted_on_timeline f evs ivs _ _ Hs Hr Hi).
  destruct (filter_starts_with
              (fun a b => iv_start a <= iv_start b /\ iv_end a <= iv_end b
                          /\ iv_end a < iv_start b)
              (fun iv => overlaps (iv_start iv) (iv_end iv) window_start window_end)
              iv ivs (intervals_ordered f evs ivs Hs Hr Hi) Hin) as (r & E).
  - unfold overlaps. apply andb_true_iff. rewrite !Z.leb_le. lia.
  - intros a (_ & _ & Ha). unfold overlaps. apply andb_false_iff. right.
    apply Z.leb_gt. lia.
  - unfold holders. rewrite E. cbn [map]. unfold unique. cbn [unique_from key_seen existsb].
    split; reflexivity.
Qed.

Lemma first_assignee_holds_at_start_witness :
  exists iv,
    In iv [mk_interval dt_min (t_2025_07_02_10h - 1) (Some "u-alice") (Some "Alice");
           mk_interval t_2025_07_02_10h dt_max (Some "u-bob") (Some "Bob")]
    /\ iv_start iv <= d_2025_07_01 <= iv_end iv
    /\ Some "Alice" = iv_name iv
    /\ Some (mk_holder (Some "u-alice") (Some "Alice")
                       d_2025_07_01 (t_2025_07_02_10h - 1))
       = Some (holder_of iv d_2025_07_01 d_2025_07_03_end).
Proof.
  apply (first_assignee_holds_at_start no_fields [alice_to_bob] _
           d_2025_07_01 d_2025_07_03_end
           (mk_window_info "Alice, Bob" "u-alice, u-bob" (Some "Alice") (Some "Bob")
              [mk_holder (Some "u-alice") (Some "Alice")
                         d_2025_07_01 (t_2025_07_02_10h - 1);
               mk_holder (Some "u-bob") (Some "Bob")
                         t_2025_07_02_10h d_2025_07_03_end])).
  - repeat constructor.
  - repeat constructor; discriminate.
  - reflexivity.
  - split; discriminate.
  - discriminate.
  - reflexivity.
Defined.

(** X25. For the sorted changes of an issue, the window computation
    fails exactly when the earliest change is stamped [datetime.min],
    and then with [OverflowError]; in every other case, and for every
    window, it returns. *)
Theorem window_info_fails_only_at_min (f : issue_fields) (e : change)
    (rest : list change) (window_start window_end : datetime) :
  chronological (e :: rest) ->
  representable (e :: rest) ->
  (created_dt e = dt_min ->
   compute_assignee_window_info f (e :: rest) window_start window_end
   = Raise OverflowError)
  /\ (dt_min < created_dt e ->
      exists win,
        compute_assignee_window_info f (e :: rest) window_start window_end = Ok win).
Proof.
  intros Hs Hr. unfold compute_assignee_window_info. split.
  - intros H. rewrite (intervals_overflow f e rest H). reflexivity.
  - intros H. rewrite (intervals_ok f e rest (chronological_later e rest Hs Hr H)).
    cbn [bind]. eauto.
Qed.

Lemma window_info_fails_only_at_min_witness :
  exists win,
    compute_assignee_window_info no_fields [alice_to_bob]
      d_2025_07_01 d_2025_07_03_end = Ok win.
Proof.
  apply (proj2 (window_info_fails_only_at_min no_fields alice_to_bob []
                  d_2025_07_01 d_2025_07_03_end
                  ltac:(repeat constructor)
                  ltac:(repeat constructor; discriminate))).
  reflexivity.
Defined.
